(** * Backend output retrieval from stack metadata and stack outputs

    A shallow embedding of
    [packages/deployed-backend-client/src/stack_metadata_output_retrieval_strategy.ts]
    (class [StackMetadataBackendOutputRetrievalStrategy]) and the properties
    of its [fetchBackendOutput] routine.

    Conventions of the embedding.
    - A JavaScript string is a [string] (its bytes, UTF-8).
    - A value that may be [undefined] is an [option].
    - An object used as a record of named properties is the association
      list of its own properties in property order: the array-index names
      first, in ascending order, then the other names in the order of their
      creation.  [define_property] creates or updates an own property,
      [assign_property] is the assignment [obj[k] = v], [get_property]
      looks a name up among the own properties and [read_property] also
      along the prototype chain, which ends in [Object.prototype].
    - An [async] function is its completion: the value it resolves with or
      the error it rejects with. *)

From Stdlib Require Import String Ascii List Bool Arith NArith Lia.
From Stdlib Require Import DecimalString.
From Stdlib Require Import Permutation Sorted.
Import ListNotations.
Open Scope string_scope.
Open Scope list_scope.

Set Warnings "-register-all".

(* ------------------------------------------------------------------ *)
(** ** Strings *)

(** [s.startsWith(p)] *)
Definition startsWith (s p : string) : bool := String.prefix p s.

(** [s.endsWith(p)] *)
Definition endsWith (s p : string) : bool :=
  let n := String.length s in
  let m := String.length p in
  Nat.leb m n && String.eqb (substring (n - m) m s) p.

(** [!!s] for a value of type [string | undefined]: [undefined] and the
    empty string are falsy. *)
Definition truthy (s : option string) : bool :=
  match s with
  | None => false
  | Some v => negb (String.eqb v "")
  end.

(** [xs.includes(x)] on an array of strings *)
Definition includes (xs : list string) (x : string) : bool :=
  existsb (String.eqb x) xs.

(** [xs.find(p)] *)
Definition Array_find {A : Type} (p : A -> bool) (xs : list A) : option A :=
  List.find p xs.

(** [o ?? d] *)
Definition nullish {A : Type} (o : option A) (d : A) : A :=
  match o with
  | Some v => v
  | None => d
  end.

(* ------------------------------------------------------------------ *)
(** ** Objects as records of named properties *)

Definition JSRecord (V : Type) : Type := list (string * V).

(** The own property [k], or [undefined]: this is [obj[k]] for a [k] that
    is the name of no member of [Object.prototype]; [read_property] is the
    read for any name. *)
Fixpoint get_property {V : Type} (k : string) (obj : JSRecord V) : option V :=
  match obj with
  | [] => None
  | (k', v) :: rest => if String.eqb k k' then Some v else get_property k rest
  end.

(** The object has the own property [k]: this is [k in obj] for a [k] that
    is the name of no member of [Object.prototype]. *)
Definition has_property {V : Type} (k : string) (obj : JSRecord V) : bool :=
  match get_property k obj with
  | Some _ => true
  | None => false
  end.

(** The write of an own property [k] that the object has already, or whose
    name is no array index: an existing property keeps its place and takes
    the new value, a new property goes last. *)
Fixpoint set_property {V : Type} (k : string) (v : V) (obj : JSRecord V)
  : JSRecord V :=
  match obj with
  | [] => [(k, v)]
  | (k', v') :: rest =>
      if String.eqb k k' then (k, v) :: rest
      else (k', v') :: set_property k v rest
  end.

(** [Object.keys(obj)] *)
Definition Object_keys {V : Type} (obj : JSRecord V) : list string :=
  map fst obj.

(** [Object.fromEntries(entries)] of entries that are in property order, as
    those that [Object.entries] lists are: each new property goes last. *)
Definition Object_fromEntries {V : Type} (entries : list (string * V))
  : JSRecord V :=
  fold_left (fun acc kv => set_property (fst kv) (snd kv) acc) entries [].

(** An array index is the canonical decimal name of an integer from 0 to
    2^32 - 2. *)
Definition is_array_index (k : string) : bool :=
  match NilEmpty.uint_of_string k with
  | Some digits =>
      String.eqb (NilEmpty.string_of_uint (N.to_uint (N.of_uint digits))) k
      && (N.of_uint digits <? 4294967295)%N
  | None => false
  end.

(** The integer that an array index names. *)
Definition index_value (k : string) : N :=
  match NilEmpty.uint_of_string k with
  | Some digits => N.of_uint digits
  | None => 0%N
  end.

(** The place of a new array index among the own properties: after the
    array indices below it, before every other property. *)
Fixpoint insert_index {V : Type} (k : string) (v : V) (obj : JSRecord V)
  : JSRecord V :=
  match obj with
  | [] => [(k, v)]
  | (k', v') :: rest =>
      if is_array_index k' && (index_value k' <? index_value k)%N
      then (k', v') :: insert_index k v rest
      else (k, v) :: (k', v') :: rest
  end.

(** [{...obj, [k]: v}], and every other creation of the own data property
    [k]: an existing property keeps its place and takes the new value; a new
    array index goes to its place among the array indices; any other new
    property goes last. *)
Definition define_property {V : Type} (k : string) (v : V) (obj : JSRecord V)
  : JSRecord V :=
  if is_array_index k && negb (has_property k obj)
  then insert_index k v obj
  else set_property k v obj.

(** [obj[k] = v] for an object [v], on an object made by [{}] that has data
    properties only.  The name [__proto__] reaches the setter that
    [Object.prototype] has under that name: the prototype of [obj] is set
    and no own property is created. *)
Definition assign_property {V : Type} (k : string) (v : V) (obj : JSRecord V)
  : JSRecord V :=
  if String.eqb k "__proto__" then obj else define_property k v obj.

(** The names of the members of [Object.prototype]. *)
Definition Object_prototype_members : list string :=
  ["constructor"; "__defineGetter__"; "__defineSetter__"; "hasOwnProperty";
   "__lookupGetter__"; "__lookupSetter__"; "isPrototypeOf";
   "propertyIsEnumerable"; "toString"; "valueOf"; "__proto__";
   "toLocaleString"].

(** What reading a property of a record of strings gives: a string of the
    record, or the member of [Object.prototype] of that name (a function;
    [Object.prototype] itself under [__proto__]). *)
Inductive PropertyValue : Type :=
| StringValue (s : string)
| PrototypeMember (name : string).

(** [obj[k]] for an object made by [{}]: the own property [k]; without it,
    the member [k] of [Object.prototype]; without that, [undefined]. *)
Definition read_property (k : string) (obj : JSRecord string)
  : option PropertyValue :=
  match get_property k obj with
  | Some value => Some (StringValue value)
  | None =>
      if includes Object_prototype_members k
      then Some (PrototypeMember k)
      else None
  end.

(** [v === ''] *)
Definition is_empty_string (v : PropertyValue) : bool :=
  match v with
  | StringValue s => String.eqb s ""
  | PrototypeMember _ => false
  end.

(* ------------------------------------------------------------------ *)
(** ** Values read from a JSON text *)

Inductive JSValue : Type :=
| JNull
| JBool (b : bool)
| JNumber (literal : string)
| JString (s : string)
| JArray (elements : list JSValue)
| JObject (properties : JSRecord JSValue).

(** A number is kept as its decimal literal: the routine never reads one. *)

(* ------------------------------------------------------------------ *)
(** ** Errors and completions *)

(** [BackendOutputClientErrorType], the members this file throws. *)
Inductive BackendOutputClientErrorType : Type :=
| METADATA_RETRIEVAL_ERROR
| NO_OUTPUTS_FOUND
| DEPLOYMENT_IN_PROGRESS
| NO_STACK_FOUND
| CREDENTIALS_ERROR
| ACCESS_DENIED.

(** What can be thrown.  [CloudFormationServiceException] is the class the
    [catch] block tests with [instanceof]; [OtherError] is any error that is
    an instance of none of the classes named here and has no [code]
    property; [CodedError] is such an error with a [code] property that is
    one of the codes of [BackendOutputClientErrorType]. *)
Inductive JSError : Type :=
| CloudFormationServiceException (name message : string)
| BackendOutputClientError (code : BackendOutputClientErrorType)
                           (message : string)
| SyntaxError (message : string)
| TypeError (message : string)
| SchemaValidationError (paths : list string)
| OtherError (name message : string)
| CodedError (code : BackendOutputClientErrorType) (message : string).

Inductive Completion (A : Type) : Type :=
| Return (a : A)
| Throw (e : JSError).

Arguments Return {A} a.
Arguments Throw {A} e.

Definition bind {A B : Type} (c : Completion A) (k : A -> Completion B)
  : Completion B :=
  match c with
  | Return a => k a
  | Throw e => Throw e
  end.

(** [try { body } catch (error) { handler }] *)
Definition try_catch {A : Type} (body : Completion A)
  (handler : JSError -> Completion A) : Completion A :=
  match body with
  | Return a => Return a
  | Throw e => handler e
  end.

Declare Scope completion_scope.
Delimit Scope completion_scope with completion.
Notation "x <- c ;; k" := (bind c (fun x => k))
  (at level 61, c at next level, right associativity) : completion_scope.
Open Scope completion_scope.

(* ------------------------------------------------------------------ *)
(** ** [JSON.parse] *)

Module JSON.

Definition quote : ascii := ascii_of_nat 34.
Definition backslash : ascii := ascii_of_nat 92.

Definition is_ws (c : ascii) : bool :=
  let n := nat_of_ascii c in
  Nat.eqb n 32 || Nat.eqb n 9 || Nat.eqb n 10 || Nat.eqb n 13.

Definition is_digit (c : ascii) : bool :=
  let n := nat_of_ascii c in
  Nat.leb 48 n && Nat.leb n 57.

Fixpoint skip_ws (s : string) : string :=
  match s with
  | String c rest => if is_ws c then skip_ws rest else s
  | EmptyString => s
  end.

(** The longest run of decimal digits at the head of [s], and what
    follows it. *)
Fixpoint take_digits (s : string) : string * string :=
  match s with
  | String c rest =>
      if is_digit c
      then let (ds, r) := take_digits rest in (String c ds, r)
      else (EmptyString, s)
  | EmptyString => (EmptyString, s)
  end.

(** [s] without its prefix [p], when it has it. *)
Fixpoint strip_prefix (p s : string) : option string :=
  match p, s with
  | EmptyString, _ => Some s
  | String a p', String b s' =>
      if Ascii.eqb a b then strip_prefix p' s' else None
  | String _ _, EmptyString => None
  end.

Definition hex_value (c : ascii) : option N :=
  let n := N_of_ascii c in
  if (48 <=? n)%N && (n <=? 57)%N then Some (n - 48)%N
  else if (65 <=? n)%N && (n <=? 70)%N then Some (n - 55)%N
  else if (97 <=? n)%N && (n <=? 102)%N then Some (n - 87)%N
  else None.

(** The code unit written by the four hexadecimal digits of a
    [\uXXXX] escape. *)
Definition hex4 (a b c d : ascii) : option N :=
  match hex_value a, hex_value b, hex_value c, hex_value d with
  | Some x, Some y, Some z, Some w =>
      Some (x * 4096 + y * 256 + z * 16 + w)%N
  | _, _, _, _ => None
  end.

Definition byte (n : N) : string := String (ascii_of_N n) EmptyString.

(** The bytes of a code point. *)
Definition utf8 (cp : N) : string :=
  if (cp <? 128)%N then byte cp
  else if (cp <? 2048)%N then
    byte (192 + cp / 64) ++ byte (128 + cp mod 64)
  else if (cp <? 65536)%N then
    byte (224 + cp / 4096) ++ byte (128 + (cp / 64) mod 64)
      ++ byte (128 + cp mod 64)
  else
    byte (240 + cp / 262144) ++ byte (128 + (cp / 4096) mod 64)
      ++ byte (128 + (cp / 64) mod 64) ++ byte (128 + cp mod 64).

Definition is_high_surrogate (u : N) : bool :=
  (55296 <=? u)%N && (u <=? 56319)%N.
Definition is_low_surrogate (u : N) : bool :=
  (56320 <=? u)%N && (u <=? 57343)%N.

(** The low surrogate written as an escape at the head of [s], and what
    follows it. *)
Definition low_surrogate_escape (s : string) : option (N * string) :=
  match s with
  | String e (String u (String a (String b (String c (String d rest))))) =>
      if Ascii.eqb e backslash && Ascii.eqb u "u" then
        match hex4 a b c d with
        | Some lo => if is_low_surrogate lo then Some (lo, rest) else None
        | None => None
        end
      else None
  | _ => None
  end.

Definition simple_escape (c : ascii) : option ascii :=
  if Ascii.eqb c quote then Some quote
  else if Ascii.eqb c backslash then Some backslash
  else if Ascii.eqb c "/" then Some "/"%char
  else if Ascii.eqb c "b" then Some (ascii_of_nat 8)
  else if Ascii.eqb c "f" then Some (ascii_of_nat 12)
  else if Ascii.eqb c "n" then Some (ascii_of_nat 10)
  else if Ascii.eqb c "r" then Some (ascii_of_nat 13)
  else if Ascii.eqb c "t" then Some (ascii_of_nat 9)
  else None.

(** What a string literal holds: bytes written as they are, and code
    units written as [\uXXXX] escapes. *)
Inductive item : Type :=
| Raw (c : ascii)
| Unit (u : N).

(** The items of a string literal whose opening quote has been read, and
    what follows its closing quote.  A control character, a bad escape
    and a missing closing quote are errors. *)
Fixpoint parse_items (s : string) : option (list item * string) :=
  match s with
  | EmptyString => None
  | String c rest =>
      if Ascii.eqb c quote then Some ([], rest)
      else if Ascii.eqb c backslash then
        match rest with
        | String e rest1 =>
            if Ascii.eqb e "u" then
              match rest1 with
              | String h1 (String h2 (String h3 (String h4 rest2))) =>
                  match hex4 h1 h2 h3 h4, parse_items rest2 with
                  | Some u, Some (items, r) => Some (Unit u :: items, r)
                  | _, _ => None
                  end
              | _ => None
              end
            else
              match simple_escape e, parse_items rest1 with
              | Some c', Some (items, r) => Some (Raw c' :: items, r)
              | _, _ => None
              end
        | EmptyString => None
        end
      else if Nat.ltb (nat_of_ascii c) 32 then None
      else
        match parse_items rest with
        | Some (items, r) => Some (Raw c :: items, r)
        | None => None
        end
  end.

(** The bytes of a string literal's items: a high surrogate followed by
    a low one is one code point. *)
Fixpoint encode (items : list item) : string :=
  match items with
  | [] => EmptyString
  | Raw c :: rest => String c (encode rest)
  | Unit hi :: rest =>
      match rest with
      | Unit lo :: rest' =>
          if is_high_surrogate hi && is_low_surrogate lo
          then utf8 (65536 + (hi - 55296) * 1024 + (lo - 56320))
                 ++ encode rest'
          else utf8 hi ++ encode rest
      | _ => utf8 hi ++ encode rest
      end
  end.

Definition parse_string (s : string) : option (string * string) :=
  match parse_items s with
  | Some (items, r) => Some (encode items, r)
  | None => None
  end.

(** A number literal at the head of [s], and what follows it: an
    optional minus sign; then a zero, or a digit other than zero and any
    digits; then optionally a point and at least one digit; then
    optionally an exponent mark, an optional sign and at least one
    digit. *)
Definition parse_sign (s : string) : string * string :=
  match s with
  | String c rest =>
      if Ascii.eqb c "-" then ("-", rest) else (EmptyString, s)
  | EmptyString => (EmptyString, s)
  end.

Definition parse_int (s : string) : option (string * string) :=
  match s with
  | String c rest =>
      if Ascii.eqb c "0" then Some ("0", rest)
      else if is_digit c
      then let (ds, r) := take_digits rest in Some (String c ds, r)
      else None
  | EmptyString => None
  end.

Definition parse_frac (s : string) : option (string * string) :=
  match s with
  | String c rest =>
      if Ascii.eqb c "." then
        let (ds, r) := take_digits rest in
        match ds with
        | EmptyString => None
        | _ => Some (String c ds, r)
        end
      else Some (EmptyString, s)
  | EmptyString => Some (EmptyString, s)
  end.

Definition parse_exp (s : string) : option (string * string) :=
  match s with
  | String c rest =>
      if Ascii.eqb c "e" || Ascii.eqb c "E" then
        let (sgn, rest1) :=
          match rest with
          | String d rest' =>
              if Ascii.eqb d "+" || Ascii.eqb d "-"
              then (String d EmptyString, rest')
              else (EmptyString, rest)
          | EmptyString => (EmptyString, rest)
          end in
        let (ds, r) := take_digits rest1 in
        match ds with
        | EmptyString => None
        | _ => Some (String c (sgn ++ ds)%string, r)
        end
      else Some (EmptyString, s)
  | EmptyString => Some (EmptyString, s)
  end.

Definition parse_number (s : string) : option (string * string) :=
  let (sgn, s1) := parse_sign s in
  match parse_int s1 with
  | Some (i, s2) =>
      match parse_frac s2 with
      | Some (f, s3) =>
          match parse_exp s3 with
          | Some (e, s4) => Some ((sgn ++ i ++ f ++ e)%string, s4)
          | None => None
          end
      | None => None
      end
  | None => None
  end.

Definition head_is (c : ascii) (s : string) : option string :=
  match s with
  | String c' rest => if Ascii.eqb c c' then Some rest else None
  | EmptyString => None
  end.

(** A value at the head of [s] (after white space), and what follows
    it.  [fuel] bounds the number of nested calls; [parse] gives enough
    of it for the whole text. *)
Fixpoint parse_value (fuel : nat) (s : string)
  : option (JSValue * string) :=
  match fuel with
  | O => None
  | S fuel' =>
      let s := skip_ws s in
      match head_is "{" s with
      | Some r =>
          match head_is "}" (skip_ws r) with
          | Some r' => Some (JObject [], r')
          | None => parse_members fuel' [] r
          end
      | None =>
      match head_is "[" s with
      | Some r =>
          match head_is "]" (skip_ws r) with
          | Some r' => Some (JArray [], r')
          | None => parse_elements fuel' [] r
          end
      | None =>
      match head_is quote s with
      | Some r =>
          match parse_string r with
          | Some (str, r') => Some (JString str, r')
          | None => None
          end
      | None =>
      match strip_prefix "true" s with
      | Some r => Some (JBool true, r)
      | None =>
      match strip_prefix "false" s with
      | Some r => Some (JBool false, r)
      | None =>
      match strip_prefix "null" s with
      | Some r => Some (JNull, r)
      | None =>
      match parse_number s with
      | Some (n, r) => Some (JNumber n, r)
      | None => None
      end end end end end end end
  end
with parse_elements (fuel : nat) (acc : list JSValue) (s : string)
  : option (JSValue * string) :=
  match fuel with
  | O => None
  | S fuel' =>
      match parse_value fuel' s with
      | Some (v, r) =>
          let r := skip_ws r in
          match head_is "," r with
          | Some r' => parse_elements fuel' (acc ++ [v]) r'
          | None =>
              match head_is "]" r with
              | Some r' => Some (JArray (acc ++ [v]), r')
              | None => None
              end
          end
      | None => None
      end
  end
with parse_members (fuel : nat) (acc : JSRecord JSValue) (s : string)
  : option (JSValue * string) :=
  match fuel with
  | O => None
  | S fuel' =>
      match head_is quote (skip_ws s) with
      | Some r =>
          match parse_string r with
          | Some (k, r1) =>
              match head_is ":" (skip_ws r1) with
              | Some r2 =>
                  match parse_value fuel' r2 with
                  | Some (v, r3) =>
                      let r3 := skip_ws r3 in
                      match head_is "," r3 with
                      | Some r' =>
                          parse_members fuel' (define_property k v acc) r'
                      | None =>
                          match head_is "}" r3 with
                          | Some r' =>
                              Some (JObject (define_property k v acc), r')
                          | None => None
                          end
                      end
                  | None => None
                  end
              | None => None
              end
          | None => None
          end
      | None => None
      end
  end.

(** [JSON.parse(text)]: the value the whole text denotes, or the
    message of the [SyntaxError]. *)
Definition parse (text : string) : Completion JSValue :=
  match parse_value (2 * String.length text + 2) text with
  | Some (v, r) =>
      match skip_ws r with
      | EmptyString => Return v
      | _ => Throw (SyntaxError "Unexpected non-whitespace character after JSON")
      end
  | None => Throw (SyntaxError "Unexpected token or end of JSON input")
  end.

End JSON.

(** A JSON text written with apostrophes for its quotes. *)
Fixpoint json_text (s : string) : string :=
  match s with
  | EmptyString => EmptyString
  | String c rest =>
      String (if Ascii.eqb c "'" then JSON.quote else c) (json_text rest)
  end.

(* ------------------------------------------------------------------ *)
(** ** The shapes the CloudFormation client answers with *)

Record Tag : Type := {
  Key : option string;
  Value : option string
}.

Record Output : Type := {
  OutputKey : option string;
  OutputValue : option string
}.

Record Stack : Type := {
  StackStatus : option string;
  Tags : option (list Tag);
  Outputs : option (list Output)
}.

Record DescribeStacksCommandOutput : Type := {
  Stacks : option (list Stack)
}.

Record GetTemplateSummaryCommandOutput : Type := {
  Metadata : option string
}.

(** [cfnClient.send(command)], one field per command the routine sends;
    the argument is the command's [StackName]. *)
Record CloudFormationClient : Type := {
  send_GetTemplateSummaryCommand :
    string -> Completion GetTemplateSummaryCommandOutput;
  send_DescribeStacksCommand :
    string -> Completion DescribeStacksCommandOutput
}.

Record MainStackNameResolver : Type := {
  resolveMainStackName : Completion string
}.

Record StackMetadataBackendOutputRetrievalStrategy : Type := {
  cfnClient : CloudFormationClient;
  stackNameResolver : MainStackNameResolver
}.

(* ------------------------------------------------------------------ *)
(** ** Metadata entries and the backend output *)

(** One validated entry of the stack metadata. *)
Record BackendOutputEntryStackMetadata : Type := {
  version : string;
  stackOutputs : list string
}.

(** One entry of the [BackendOutput]. *)
Module BackendOutputEntry.
Record t : Type := make {
  version : string;
  payload : JSRecord PropertyValue
}.
End BackendOutputEntry.

Definition BackendOutput : Type := JSRecord BackendOutputEntry.t.

(* ------------------------------------------------------------------ *)
(** ** Operators on values *)

(** The name of the array index [i]. *)
Definition index_name (i : nat) : string :=
  NilEmpty.string_of_uint (Nat.to_uint i).

(** The digits of a number literal up to its exponent are all zero. *)
Fixpoint zero_literal (literal : string) : bool :=
  match literal with
  | EmptyString => true
  | String c rest =>
      if Ascii.eqb c "e" || Ascii.eqb c "E" then true
      else (Ascii.eqb c "0" || Ascii.eqb c "-" || Ascii.eqb c ".")
           && zero_literal rest
  end.

(** [!!v] *)
Definition to_boolean (v : JSValue) : bool :=
  match v with
  | JNull => false
  | JBool b => b
  | JNumber literal => negb (zero_literal literal)
  | JString s => negb (String.eqb s "")
  | JArray _ => true
  | JObject _ => true
  end.

(** [typeof v] *)
Definition typeof (v : JSValue) : string :=
  match v with
  | JNull => "object"
  | JBool _ => "boolean"
  | JNumber _ => "number"
  | JString _ => "string"
  | JArray _ => "object"
  | JObject _ => "object"
  end.

(** [k in v], for a [v] whose [typeof] is ["object"] and that is not
    [null]: the one use in this file is guarded so.  An array has its
    index names and [length]. *)
Definition prop_in (k : string) (v : JSValue) : bool :=
  match v with
  | JObject properties => has_property k properties
  | JArray elements =>
      String.eqb k "length"
      || existsb (String.eqb k) (map index_name (seq 0 (List.length elements)))
  | _ => false
  end.

(** The one-character strings of a string, one per index. *)
Fixpoint characters (s : string) : list JSValue :=
  match s with
  | EmptyString => []
  | String c rest => JString (String c EmptyString) :: characters rest
  end.

Definition indexed (values : list JSValue) : list (string * JSValue) :=
  combine (map index_name (seq 0 (List.length values))) values.

(** [Object.entries(v)] *)
Definition Object_entries (v : JSValue) : Completion (list (string * JSValue)) :=
  match v with
  | JNull => Throw (TypeError "Cannot convert undefined or null to object")
  | JBool _ => Return []
  | JNumber _ => Return []
  | JString s => Return (indexed (characters s))
  | JArray elements => Return (indexed elements)
  | JObject properties => Return properties
  end.

(* ------------------------------------------------------------------ *)
(** ** The metadata schema *)

Fixpoint unique (names : list string) : bool :=
  match names with
  | [] => true
  | n :: rest => negb (includes rest n) && unique rest
  end.

(** The strings of an array whose elements are all strings. *)
Fixpoint strings_of (values : list JSValue) : option (list string) :=
  match values with
  | [] => Some []
  | JString s :: rest =>
      match strings_of rest with
      | Some names => Some (s :: names)
      | None => None
      end
  | _ :: _ => None
  end.

(** Modelled from the spec: the entry schema [backendOutputEntryStackMetadataSchema]
    of the package [backend-output-schemas], whose source is not at hand.
    The spec asks for a required [version], a string, and a required
    [stackOutputs], a sequence of strings that is not empty and has no
    string twice. *)
Definition backendOutputEntryStackMetadataSchema_parse (value : JSValue)
  : option BackendOutputEntryStackMetadata :=
  match value with
  | JObject properties =>
      match get_property "version" properties,
            get_property "stackOutputs" properties with
      | Some (JString v), Some (JArray elements) =>
          match strings_of elements with
          | Some names =>
              if negb (Nat.eqb (List.length names) 0) && unique names
              then Some {| version := v; stackOutputs := names |}
              else None
          | None => None
          end
      | _, _ => None
      end
  | _ => None
  end.

(** The keys of the entries the entry schema refuses. *)
Definition refused (metadata : JSRecord JSValue) : list string :=
  flat_map
    (fun kv =>
       match backendOutputEntryStackMetadataSchema_parse (snd kv) with
       | Some _ => []
       | None => [fst kv]
       end)
    metadata.

(** The entries the entry schema accepts, under their keys. *)
Definition accepted (metadata : JSRecord JSValue)
  : JSRecord BackendOutputEntryStackMetadata :=
  flat_map
    (fun kv =>
       match backendOutputEntryStackMetadataSchema_parse (snd kv) with
       | Some entry => [(fst kv, entry)]
       | None => []
       end)
    metadata.

(** Modelled from the spec: [backendOutputStackMetadataSchema.parse] of the
    package [backend-output-schemas], whose source is not at hand.  The
    spec validates each entry against the entry schema, keeps the entries
    under their keys, and fails with a schema validation error, which lists
    the violations, if any entry is malformed. *)
Definition backendOutputStackMetadataSchema_parse
  (metadata : JSRecord JSValue)
  : Completion (JSRecord BackendOutputEntryStackMetadata) :=
  match refused metadata with
  | [] => Return (accepted metadata)
  | paths => Throw (SchemaValidationError paths)
  end.

(* ------------------------------------------------------------------ *)
(** ** The retrieval strategy *)

(** Type predicate to determine if stack metadata entry is like a backend
    output entry. *)
Definition isBackendOutputEntryStackMetadata (obj : JSValue) : bool :=
  to_boolean obj
  && String.eqb (typeof obj) "object"
  && prop_in "version" obj
  && prop_in "stackOutputs" obj.

(** Filter out stack metadata entries that do not pertain to backend
    outputs. *)
Definition filterBackendOutputEntryStackMetadata (metadata : JSValue)
  : Completion (JSRecord JSValue) :=
  entries <- Object_entries metadata;;
  Return
    (Object_fromEntries
       (filter (fun kv => isBackendOutputEntryStackMetadata (snd kv))
          entries)).

(** [error instanceof CloudFormationServiceException], with the [name] and
    the [message] of such an error. *)
Definition instanceof_CloudFormationServiceException (error : JSError)
  : option (string * string) :=
  match error with
  | CloudFormationServiceException name message => Some (name, message)
  | _ => None
  end.

(** The [catch] block around the metadata fetch. *)
Definition catch_metadata_error (stackName : string) (error : JSError)
  : Completion JSValue :=
  if match instanceof_CloudFormationServiceException error with
     | Some (_, message) =>
         startsWith message "Stack with id"
         && endsWith message "does not exist"
     | None => false
     end
  then
    Throw (BackendOutputClientError NO_STACK_FOUND
             ("Stack with id " ++ stackName ++ " does not exist"))
  else
  match instanceof_CloudFormationServiceException error with
  | Some (name, message) =>
      if includes ["ExpiredToken"; "InvalidClientTokenId"] name
      then Throw (BackendOutputClientError CREDENTIALS_ERROR message)
      else if String.eqb name "AccessDenied"
      then Throw (BackendOutputClientError ACCESS_DENIED message)
      else Throw error
  | None => Throw error
  end.

(** [stackDescription?.Stacks?.[0]?.member]: every step is optional. *)
Definition optional_first_stack {A : Type}
  (stackDescription : DescribeStacksCommandOutput)
  (member : Stack -> option A) : option A :=
  match Stacks stackDescription with
  | None => None
  | Some [] => None
  | Some (stack :: _) => member stack
  end.

(** [stackDescription.Stacks?.[0].member]: an absent [Stacks] ends the
    chain with [undefined]; a [Stacks] with no first element makes the
    member access throw. *)
Definition first_stack {A : Type}
  (stackDescription : DescribeStacksCommandOutput)
  (member : Stack -> option A) : Completion (option A) :=
  match Stacks stackDescription with
  | None => Return None
  | Some [] =>
      Throw (TypeError "Cannot read properties of undefined")
  | Some (stack :: _) => Return (member stack)
  end.

(** The record of the usable outputs: name to value. *)
Definition stackOutputRecord_of (outputs : list Output) : JSRecord string :=
  fold_left
    (fun accumulator outputEntry =>
       match OutputKey outputEntry, OutputValue outputEntry with
       | Some key, Some value => define_property key value accumulator
       | _, _ => accumulator
       end)
    (filter
       (fun output =>
          truthy (OutputValue output) && truthy (OutputKey output))
       outputs)
    [].

(** The payload of one entry: its names for which reading the record of
    the outputs gives neither [undefined] nor the empty string. *)
Definition outputData_of (stackOutputRecord : JSRecord string)
  (entry : BackendOutputEntryStackMetadata) : JSRecord PropertyValue :=
  fold_left
    (fun accumulator outputName =>
       match read_property outputName stackOutputRecord with
       | None => accumulator
       | Some value =>
           if is_empty_string value then accumulator
           else define_property outputName value accumulator
       end)
    (stackOutputs entry)
    [].

(** The second half of [fetchBackendOutput], from the reading of
    [outputs] to the [return]: the stack description is checked and the
    validated metadata is joined with the stack outputs. *)
Definition reconstruct
  (backendOutputMetadata : JSRecord BackendOutputEntryStackMetadata)
  (stackDescription : DescribeStacksCommandOutput)
  : Completion BackendOutput :=
  let outputs := optional_first_stack stackDescription Outputs in
  stackStatus <- first_stack stackDescription StackStatus;;
  if match stackStatus with
     | Some status => endsWith status "_IN_PROGRESS"
     | None => false
     end
  then
    tags <- first_stack stackDescription Tags;;
    let deploymentType :=
      nullish
        (match
           match tags with
           | Some tags =>
               Array_find
                 (fun tag =>
                    match Key tag with
                    | Some key => String.eqb key "amplify:deployment-type"
                    | None => false
                    end)
                 tags
           | None => None
           end
         with
         | Some tag => Value tag
         | None => None
         end)
        "sandbox" in
    Throw (BackendOutputClientError DEPLOYMENT_IN_PROGRESS
             ("This " ++ deploymentType
              ++ " deployment is in progress. Re-run this command once the deployment completes."))
  else
  match outputs with
  | None =>
      Throw (BackendOutputClientError NO_OUTPUTS_FOUND
               "Stack outputs are undefined")
  | Some outputs =>
      let stackOutputRecord := stackOutputRecord_of outputs in
      Return
        (fold_left
           (fun result kv =>
              assign_property (fst kv)
                (BackendOutputEntry.make (version (snd kv))
                   (outputData_of stackOutputRecord (snd kv)))
                result)
           backendOutputMetadata
           [])
  end.

(** Resolves the stack name, then queries CloudFormation for the stack
    metadata and outputs, and combines the two. *)
Definition fetchBackendOutput
  (this : StackMetadataBackendOutputRetrievalStrategy)
  : Completion BackendOutput :=
  stackName <- resolveMainStackName (stackNameResolver this);;
  metadataObject <-
    try_catch
      (templateSummary <-
         send_GetTemplateSummaryCommand (cfnClient this) stackName;;
       match Metadata templateSummary with
       | None =>
           Throw (BackendOutputClientError METADATA_RETRIEVAL_ERROR
                    "Stack template metadata is not a string")
       | Some text => JSON.parse text
       end)
      (catch_metadata_error stackName);;
  filteredMetadataObject <-
    filterBackendOutputEntryStackMetadata metadataObject;;
  backendOutputMetadata <-
    backendOutputStackMetadataSchema_parse filteredMetadataObject;;
  stackDescription <- send_DescribeStacksCommand (cfnClient this) stackName;;
  reconstruct backendOutputMetadata stackDescription.

(* ------------------------------------------------------------------ *)
(** ** What the claims speak of *)

(** The value the raw outputs give a name: that of the last output entry
    that carries the name and a value, neither of them empty.  An entry
    whose key is undefined or empty carries no name. *)
Fixpoint rawOutputValue (outputs : list Output) (name : string)
  : option string :=
  match outputs with
  | [] => None
  | output :: rest =>
      match rawOutputValue rest name with
      | Some value => Some value
      | None =>
          match OutputKey output, OutputValue output with
          | Some key, Some value =>
              if String.eqb key name
                 && negb (String.eqb key "")
                 && negb (String.eqb value "")
              then Some value
              else None
          | _, _ => None
          end
      end
  end.

(** The payload the claims describe for a list of declared names. *)
Definition resolved (outputs : list Output) (names : list string)
  : JSRecord PropertyValue :=
  flat_map
    (fun name =>
       match rawOutputValue outputs name with
       | Some value => [(name, StringValue value)]
       | None => []
       end)
    names.

(** The array indices of a list of names in ascending order. *)
Fixpoint insert_ascending (k : string) (keys : list string) : list string :=
  match keys with
  | [] => [k]
  | k' :: rest =>
      if (index_value k' <? index_value k)%N
      then k' :: insert_ascending k rest
      else k :: k' :: rest
  end.

Definition ascending (keys : list string) : list string :=
  fold_left (fun sorted k => insert_ascending k sorted) keys [].

(** The property order of a list of distinct names: the array indices in
    ascending order, then the other names in the order of the list. *)
Definition property_order (keys : list string) : list string :=
  ascending (filter is_array_index keys)
  ++ filter (fun k => negb (is_array_index k)) keys.

(** The object that has the properties of a list of entries, created in
    the order of the list. *)
Definition in_property_order {V : Type} (entries : list (string * V))
  : JSRecord V :=
  fold_left (fun obj kv => define_property (fst kv) (snd kv) obj) entries [].

(** The names that reading an object made by [{}] finds only when they are
    its own: those of no member of [Object.prototype]. *)
Definition own_name (name : string) : bool :=
  negb (includes Object_prototype_members name).

(** The group of a validated entry, under its key. *)
Definition grouped (outputs : list Output)
  (kv : string * BackendOutputEntryStackMetadata)
  : string * BackendOutputEntry.t :=
  (fst kv,
   BackendOutputEntry.make (version (snd kv))
     (outputData_of (stackOutputRecord_of outputs) (snd kv))).

(** The keys under which an assignment creates an own property. *)
Definition assignable (key : string) : bool :=
  negb (String.eqb key "__proto__").

(** What the claims call a malformed entry: no [version], or a
    [stackOutputs] that is not a sequence of strings, not empty and
    without a string twice. *)
Definition malformed (value : JSValue) : Prop :=
  forall properties,
    value = JObject properties ->
    get_property "version" properties = None
    \/ ~ exists names,
          get_property "stackOutputs" properties
          = Some (JArray (map JString names))
          /\ names <> [] /\ NoDup names.

(** The status of a stack says that a deployment is in progress. *)
Definition in_progress (stack : Stack) : bool :=
  match StackStatus stack with
  | Some status => endsWith status "_IN_PROGRESS"
  | None => false
  end.

(** The message of the deployment-in-progress error for a label. *)
Definition in_progress_message (label : string) : string :=
  "This " ++ label
  ++ " deployment is in progress. Re-run this command once the deployment completes.".

(** A tag is the deployment-type tag. *)
Definition is_deployment_type (tag : Tag) : bool :=
  match Key tag with
  | Some key => String.eqb key "amplify:deployment-type"
  | None => false
  end.

(** The message of a service exception says that the stack does not
    exist. *)
Definition no_stack_message (message : string) : bool :=
  startsWith message "Stack with id" && endsWith message "does not exist".

(** A strategy over fixed answers of its collaborators. *)
Definition strategy_of
  (stackName : Completion string)
  (templateSummary : Completion GetTemplateSummaryCommandOutput)
  (stackDescription : Completion DescribeStacksCommandOutput)
  : StackMetadataBackendOutputRetrievalStrategy :=
  {| cfnClient :=
       {| send_GetTemplateSummaryCommand := fun _ => templateSummary;
          send_DescribeStacksCommand := fun _ => stackDescription |};
     stackNameResolver := {| resolveMainStackName := stackName |} |}.

(* ------------------------------------------------------------------ *)
(** ** A deployed stack to run the routine on *)

(** The metadata text: one backend output entry and one unrelated key. *)
Definition example_text : string :=
  json_text
    "{'api': {'version': '1', 'stackOutputs': ['ApiUrl', 'ApiId']}, 'unrelated': {'note': 'x'}}".

Definition example_api : JSValue :=
  JObject
    [("version", JString "1");
     ("stackOutputs", JArray [JString "ApiUrl"; JString "ApiId"])].

Definition example_properties : JSRecord JSValue :=
  [("api", example_api); ("unrelated", JObject [("note", JString "x")])].

Definition example_entry : BackendOutputEntryStackMetadata :=
  {| version := "1"; stackOutputs := ["ApiUrl"; "ApiId"] |}.

(** The outputs: [ApiUrl] has a value, [ApiId] an empty one. *)
Definition example_outputs : list Output :=
  [ {| OutputKey := Some "ApiUrl"; OutputValue := Some "https://x" |};
    {| OutputKey := Some "ApiId"; OutputValue := Some "" |} ].

Definition example_stack (status : string) (outputs : option (list Output))
  : Stack :=
  {| StackStatus := Some status;
     Tags := Some [ {| Key := Some "amplify:deployment-type";
                       Value := Some "branch" |} ];
     Outputs := outputs |}.

Definition example_strategy
  (templateSummary : Completion GetTemplateSummaryCommandOutput)
  (stackDescription : Completion DescribeStacksCommandOutput)
  : StackMetadataBackendOutputRetrievalStrategy :=
  strategy_of (Return "amplify-app-main") templateSummary stackDescription.

Definition example_summary : Completion GetTemplateSummaryCommandOutput :=
  Return {| Metadata := Some example_text |}.

(** A metadata text whose entry declares no output name, and one whose
    entry has a version only. *)
Definition malformed_text : string :=
  json_text "{'api': {'version': '1', 'stackOutputs': []}}".

Definition version_only_text : string :=
  json_text "{'api': {'version': '1'}}".



Definition index_key_text : string :=
  json_text
    "{'b': {'version': '1', 'stackOutputs': ['ApiUrl']}, '1': {'version': '2', 'stackOutputs': ['ApiId']}}".

Definition inherited_name_text : string :=
  json_text "{'api': {'version': '1', 'stackOutputs': ['constructor']}}".

(* ------------------------------------------------------------------ *)
(** ** The usable outputs *)

(** The name and value of an output entry that the record of outputs takes
    up: both are defined and neither is empty. *)
Definition usable_pair (output : Output) : option (string * string) :=
  match OutputKey output, OutputValue output with
  | Some key, Some value =>
      if negb (String.eqb key "") && negb (String.eqb value "")
      then Some (key, value)
      else None
  | _, _ => None
  end.

(** The names and values of the usable output entries, in their order. *)
Definition usable_pairs (outputs : list Output) : list (string * string) :=
  flat_map
    (fun output =>
       match usable_pair output with
       | Some kv => [kv]
       | None => []
       end)
    outputs.

(** The payload reduction without its test for the empty string. *)
Definition outputData_without_empty_test
  (stackOutputRecord : JSRecord string)
  (entry : BackendOutputEntryStackMetadata) : JSRecord PropertyValue :=
  fold_left
    (fun accumulator outputName =>
       match read_property outputName stackOutputRecord with
       | None => accumulator
       | Some value => define_property outputName value accumulator
       end)
    (stackOutputs entry)
    [].

(** The errors that [fetchBackendOutput] raises itself, when every
    collaborator answers. *)
Definition own_error (error : JSError) : Prop :=
  error = BackendOutputClientError METADATA_RETRIEVAL_ERROR
            "Stack template metadata is not a string"
  \/ (exists message, error = SyntaxError message)
  \/ (exists message, error = TypeError message)
  \/ (exists paths, error = SchemaValidationError paths)
  \/ (exists label,
        error = BackendOutputClientError DEPLOYMENT_IN_PROGRESS
                  (in_progress_message label))
  \/ error = BackendOutputClientError NO_OUTPUTS_FOUND
               "Stack outputs are undefined".

(* ------------------------------------------------------------------ *)
(** ** The command that generates forms

    [packages/cli/src/commands/generate/forms/generate_forms_command.ts],
    class [GenerateFormsCommand].  Its collaborators are interfaces; the
    constant [graphqlOutputKey], the function [path.join] and the type of
    the backend identifiers are parameters. *)

(** What a command throws: an [AmplifyUserError] with its name, message,
    resolution and cause; a plain [Error]; or an error of the layers below,
    thrown as it is. *)
Inductive CommandError : Type :=
| AmplifyUserError (name message resolution : string)
                   (cause : option JSError)
| PlainError (message : string)
| Thrown (error : JSError).

Inductive CommandCompletion (A : Type) : Type :=
| Resolved (a : A)
| Rejected (e : CommandError).

Arguments Resolved {A} a.
Arguments Rejected {A} e.

Definition command_bind {A B : Type} (c : CommandCompletion A)
  (k : A -> CommandCompletion B) : CommandCompletion B :=
  match c with
  | Resolved a => k a
  | Rejected e => Rejected e
  end.


Module GenerateFormsCommandOptions.
Record t : Type := make {
  stack : option string;
  appId : option string;
  branch : option string;
  outDir : option string;
  models : option (list string)
}.
End GenerateFormsCommandOptions.

Section GenerateForms.

Variable DeployedBackendIdentifier : Type.
Variable graphqlOutputKey : string.
Variable path_join : string -> string -> string.

(** The argument of [formGenerationHandler.generate]. *)
Record FormGenerationOptions : Type := {
  modelsOutDir : string;
  backendIdentifier : DeployedBackendIdentifier;
  uiOutDir : string;
  apiUrl : option PropertyValue;
  modelsFilter : option (list string)
}.

Record BackendIdentifierResolver : Type := {
  resolveDeployedBackendIdentifier :
    GenerateFormsCommandOptions.t ->
    CommandCompletion (option DeployedBackendIdentifier)
}.

Record BackendOutputClient : Type := {
  getOutput : DeployedBackendIdentifier -> Completion BackendOutput
}.

Record FormGenerationHandler : Type := {
  generate : FormGenerationOptions -> CommandCompletion unit
}.

Record GenerateFormsCommand : Type := {
  backendIdentifierResolver : BackendIdentifierResolver;
  backendOutputClientBuilder : unit -> BackendOutputClient;
  formGenerationHandler : FormGenerationHandler
}.

(** [BackendOutputClientError.isBackendOutputClientError(error)], with the
    [code] that the [switch] then reads.  The guard is a type predicate on
    the properties of the error, not a test of its class: it holds of every
    error whose [code] is one of the codes of
    [BackendOutputClientErrorType], whatever its class. *)
Definition isBackendOutputClientError (error : JSError)
  : option BackendOutputClientErrorType :=
  match error with
  | BackendOutputClientError code _ => Some code
  | CodedError code _ => Some code
  | _ => None
  end.

(** The [catch] block around [getOutput]. *)
Definition catch_output_error (error : JSError) : CommandError :=
  match isBackendOutputClientError error with
  | Some DEPLOYMENT_IN_PROGRESS =>
      AmplifyUserError "DeploymentInProgressError"
        "Deployment is currently in progress."
        "Re-run this command once the deployment completes."
        (Some error)
  | Some NO_STACK_FOUND =>
      AmplifyUserError "StackDoesNotExistError"
        "Stack does not exist."
        "Ensure the CloudFormation stack ID or Amplify App ID and branch specified are correct and exists, then re-run this command."
        (Some error)
  | Some NO_OUTPUTS_FOUND =>
      AmplifyUserError "AmplifyOutputsNotFoundError"
        "Amplify outputs not found in stack metadata"
        "Ensure the CloudFormation stack ID or Amplify App ID and branch specified are correct and exists.
        If this is a new sandbox or branch deployment, wait for the deployment to be successfully finished and try again."
        (Some error)
  | Some CREDENTIALS_ERROR =>
      AmplifyUserError "CredentialsError"
        "Unable to get backend outputs due to invalid credentials."
        "Ensure your AWS credentials are correctly set and refreshed."
        (Some error)
  | Some ACCESS_DENIED =>
      AmplifyUserError "AccessDeniedError"
        "Unable to get backend outputs due to insufficient permissions."
        "Ensure you have permissions to call cloudformation:GetTemplateSummary."
        (Some error)
  | Some METADATA_RETRIEVAL_ERROR => Thrown error
  | None => Thrown error
  end.

(** [handler(args)] *)
Definition handler (this : GenerateFormsCommand)
  (args : GenerateFormsCommandOptions.t) : CommandCompletion unit :=
  command_bind
    (resolveDeployedBackendIdentifier (backendIdentifierResolver this) args)
    (fun backendIdentifier =>
  match backendIdentifier with
  | None =>
      Rejected
        (AmplifyUserError "BackendIdentifierResolverError"
           "Could not resolve the backend identifier."
           "Ensure stack name or Amplify App ID and branch specified are correct and exists, then re-run this command."
           None)
  | Some backendIdentifier =>
      let backendOutputClient := backendOutputClientBuilder this tt in
      command_bind
        (match getOutput backendOutputClient backendIdentifier with
         | Return output => Resolved output
         | Throw error => Rejected (catch_output_error error)
         end)
        (fun output =>
      if negb (has_property graphqlOutputKey output)
         || negb (match get_property graphqlOutputKey output with
                  | Some _ => true
                  | None => false
                  end)
      then Rejected (PlainError "No GraphQL API configured for this backend.")
      else
        let apiUrl :=
          match get_property graphqlOutputKey output with
          | Some entry =>
              get_property "amplifyApiModelSchemaS3Uri"
                (BackendOutputEntry.payload entry)
          | None => None
          end in
        if negb (truthy (GenerateFormsCommandOptions.outDir args))
        then Rejected (PlainError "out-dir must be defined")
        else
          let outDir :=
            nullish (GenerateFormsCommandOptions.outDir args) "" in
          generate (formGenerationHandler this)
            {| modelsOutDir := path_join outDir "graphql";
               backendIdentifier := backendIdentifier;
               uiOutDir := outDir;
               apiUrl := apiUrl;
               modelsFilter := GenerateFormsCommandOptions.models args |})
  end).

(** A backend output client that hands out what a retrieval strategy
    fetches, whatever the backend identifier. *)
Definition client_of (strategy : StackMetadataBackendOutputRetrievalStrategy)
  : BackendOutputClient :=
  {| getOutput := fun _ => fetchBackendOutput strategy |}.

End GenerateForms.

Arguments resolveDeployedBackendIdentifier {_} _ _.
Arguments getOutput {_} _ _.
Arguments generate {_} _ _.
Arguments backendIdentifierResolver {_} _.
Arguments backendOutputClientBuilder {_} _ _.
Arguments formGenerationHandler {_} _.
Arguments modelsOutDir {_} _.
Arguments backendIdentifier {_} _.
Arguments uiOutDir {_} _.
Arguments apiUrl {_} _.
Arguments modelsFilter {_} _.
Arguments handler {_} _ _ _ _.
Arguments client_of {_} _.

(** A command to run the handler on: backend identifiers are stack names,
    the identifier resolves to the stack of the example, and every request
    to generate forms is granted. *)
Definition example_path_join (directory name : string) : string :=
  directory ++ "/" ++ name.

Definition example_command (client : BackendOutputClient string)
  : GenerateFormsCommand string :=
  {| backendIdentifierResolver :=
       {| resolveDeployedBackendIdentifier :=
            fun _ => Resolved (Some "amplify-app-main") |};
     backendOutputClientBuilder := fun _ => client;
     formGenerationHandler := {| generate := fun _ => Resolved tt |} |}.

Definition example_args : GenerateFormsCommandOptions.t :=
  GenerateFormsCommandOptions.make
    None (Some "app") (Some "main") (Some "ui-components") None.


(* ------------------------------------------------------------------ *)
(** ** Records of named properties *)

Section Records.
Context {V : Type}.
Implicit Types (obj : JSRecord V) (k : string) (v : V).

Lemma get_property_None obj k :
  get_property k obj = None <-> ~ In k (Object_keys obj).
Proof.
  induction obj as [|[k' v'] rest IH]; simpl.
  - tauto.
  - destruct (String.eqb_spec k k') as [->|Hne].
    + split; [discriminate | intros H; exfalso; apply H; now left].
    + rewrite IH. split.
      * intros H [Heq|Hin]; [congruence | tauto].
      * intros H Hin. apply H. now right.
Qed.

Lemma get_property_In obj k v :
  get_property k obj = Some v -> In (k, v) obj.
Proof.
  induction obj as [|[k' v'] rest IH]; simpl; [discriminate|].
  destruct (String.eqb_spec k k') as [->|Hne].
  - intros [= ->]. now left.
  - intros H. right. now apply IH.
Qed.

Lemma In_get_property obj k v :
  NoDup (Object_keys obj) -> In (k, v) obj -> get_property k obj = Some v.
Proof.
  induction obj as [|[k' v'] rest IH]; simpl; [tauto|].
  intros Hnd [Heq|Hin].
  - injection Heq as -> ->. now rewrite String.eqb_refl.
  - inversion Hnd as [|? ? Hnotin Hnd']; subst.
    destruct (String.eqb_spec k k') as [->|Hne].
    + exfalso. apply Hnotin. now apply (in_map fst) in Hin.
    + now apply IH.
Qed.

Lemma get_set_property obj k k' v :
  get_property k (set_property k' v obj)
  = if String.eqb k k' then Some v else get_property k obj.
Proof.
  induction obj as [|[k0 v0] rest IH]; simpl.
  - reflexivity.
  - destruct (String.eqb_spec k' k0) as [->|Hne]; simpl.
    + destruct (String.eqb k k0); reflexivity.
    + rewrite IH. destruct (String.eqb_spec k k') as [->|Hne'].
      * destruct (String.eqb_spec k' k0); [contradiction | reflexivity].
      * reflexivity.
Qed.

Lemma set_property_new obj k v :
  ~ In k (Object_keys obj) -> set_property k v obj = obj ++ [(k, v)].
Proof.
  induction obj as [|[k' v'] rest IH]; simpl; intros Hnotin.
  - reflexivity.
  - destruct (String.eqb_spec k k') as [->|Hne].
    + exfalso. apply Hnotin. now left.
    + rewrite IH; [reflexivity | tauto].
Qed.

Lemma set_property_keys obj k v :
  Object_keys (set_property k v obj)
  = if has_property k obj then Object_keys obj else Object_keys obj ++ [k].
Proof.
  unfold has_property.
  induction obj as [|[k' v'] rest IH]; simpl.
  - reflexivity.
  - destruct (String.eqb_spec k k') as [->|Hne]; simpl.
    + reflexivity.
    + rewrite IH. now destruct (get_property k rest).
Qed.

Lemma set_property_NoDup obj k v :
  NoDup (Object_keys obj) -> NoDup (Object_keys (set_property k v obj)).
Proof.
  intros Hnd. rewrite set_property_keys. unfold has_property.
  destruct (get_property k obj) eqn:Hget; [assumption|].
  apply get_property_None in Hget.
  apply NoDup_app; [assumption | repeat constructor; simpl; tauto |].
  intros x Hx [<-|[]]. contradiction.
Qed.

(** Writing entries whose keys are new and distinct appends them. *)
Lemma fold_set_property_append {X : Type} (g : X -> string * V)
  (xs : list X) obj :
  NoDup (Object_keys obj ++ map (fun x => fst (g x)) xs) ->
  fold_left (fun acc x => set_property (fst (g x)) (snd (g x)) acc) xs obj
  = obj ++ map g xs.
Proof.
  revert obj. induction xs as [|x xs IH]; intros obj Hnd; simpl.
  - now rewrite app_nil_r.
  - assert (Hnotin : ~ In (fst (g x)) (Object_keys obj)).
    { simpl in Hnd. apply NoDup_remove_2 in Hnd.
      intros Hin. apply Hnd. apply in_or_app. now left. }
    rewrite set_property_new by exact Hnotin.
    rewrite IH.
    + rewrite <- app_assoc. simpl. now destruct (g x).
    + unfold Object_keys in *. rewrite map_app. simpl.
      rewrite <- app_assoc. simpl. exact Hnd.
Qed.

Lemma fold_set_property_NoDup {X : Type} (g : X -> string * V)
  (xs : list X) obj :
  NoDup (Object_keys obj) ->
  NoDup (Object_keys
           (fold_left
              (fun acc x => set_property (fst (g x)) (snd (g x)) acc)
              xs obj)).
Proof.
  revert obj. induction xs as [|x xs IH]; intros obj Hnd; simpl.
  - assumption.
  - apply IH. now apply set_property_NoDup.
Qed.

Lemma Object_fromEntries_NoDup (entries : list (string * V)) :
  NoDup (Object_keys (Object_fromEntries entries)).
Proof.
  unfold Object_fromEntries.
  apply (fold_set_property_NoDup (fun kv => kv)). constructor.
Qed.

(** Entries with distinct keys make the object that lists them. *)
Lemma Object_fromEntries_distinct (entries : list (string * V)) :
  NoDup (map fst entries) -> Object_fromEntries entries = entries.
Proof.
  intros Hnd. unfold Object_fromEntries.
  rewrite (fold_set_property_append (fun kv => kv)).
  - simpl. now rewrite map_id.
  - simpl. exact Hnd.
Qed.

End Records.

(* ------------------------------------------------------------------ *)
(** ** Properties in property order *)

Section PropertyOrder.
Context {V : Type}.
Implicit Types (obj : JSRecord V) (k : string) (v : V).

Lemma In_keys_get_property obj k :
  In k (Object_keys obj) <-> get_property k obj <> None.
Proof.
  rewrite get_property_None.
  destruct (in_dec String.string_dec k (Object_keys obj)); tauto.
Qed.

Lemma has_property_false obj k :
  has_property k obj = false <-> ~ In k (Object_keys obj).
Proof.
  rewrite <- get_property_None. unfold has_property.
  destruct (get_property k obj); split; congruence.
Qed.

Lemma get_property_app obj obj' k :
  get_property k (obj ++ obj')
  = match get_property k obj with
    | Some v => Some v
    | None => get_property k obj'
    end.
Proof.
  induction obj as [|[k0 v0] rest IH]; simpl; [reflexivity|].
  destruct (String.eqb k k0); [reflexivity | exact IH].
Qed.

Lemma set_property_In obj key value k v :
  In (k, v) (set_property key value obj) ->
  (key, value) = (k, v) \/ In (k, v) obj.
Proof.
  induction obj as [|[k0 v0] rest IH]; simpl.
  - tauto.
  - destruct (String.eqb key k0); simpl; [tauto|].
    intros [Heq|Hin]; [tauto|]. apply IH in Hin. tauto.
Qed.

Lemma set_property_length obj key value :
  List.length (set_property key value obj) <= S (List.length obj).
Proof.
  induction obj as [|[k0 v0] rest IH]; simpl; [lia|].
  destruct (String.eqb key k0); simpl; lia.
Qed.

Lemma insert_index_Permutation obj k v :
  Permutation (insert_index k v obj) ((k, v) :: obj).
Proof.
  induction obj as [|[k0 v0] rest IH]; simpl; [reflexivity|].
  destruct (is_array_index k0 && (index_value k0 <? index_value k)%N).
  - rewrite IH. apply perm_swap.
  - reflexivity.
Qed.

Lemma get_insert_index obj k k' v :
  get_property k' obj = None ->
  get_property k (insert_index k' v obj)
  = if String.eqb k k' then Some v else get_property k obj.
Proof.
  induction obj as [|[k0 v0] rest IH]; simpl; intros Hnew; [reflexivity|].
  destruct (String.eqb_spec k' k0) as [->|Hne]; [discriminate|].
  destruct (is_array_index k0 && (index_value k0 <? index_value k')%N);
    simpl.
  - rewrite (IH Hnew).
    destruct (String.eqb_spec k k0) as [->|Hne'].
    + destruct (String.eqb_spec k0 k'); [congruence | reflexivity].
    + reflexivity.
  - reflexivity.
Qed.

Lemma get_define_property obj k k' v :
  get_property k (define_property k' v obj)
  = if String.eqb k k' then Some v else get_property k obj.
Proof.
  unfold define_property.
  destruct (is_array_index k' && negb (has_property k' obj)) eqn:Hnew.
  - apply get_insert_index. apply andb_prop in Hnew.
    destruct Hnew as [_ Hnew]. unfold has_property in Hnew.
    now destruct (get_property k' obj).
  - apply get_set_property.
Qed.


Lemma define_property_In obj key value k v :
  In (k, v) (define_property key value obj) ->
  (key, value) = (k, v) \/ In (k, v) obj.
Proof.
  unfold define_property.
  destruct (is_array_index key && negb (has_property key obj)).
  - intros Hin.
    apply (Permutation_in _ (insert_index_Permutation obj key value)) in Hin.
    exact Hin.
  - apply set_property_In.
Qed.

Lemma define_property_length obj key value :
  List.length (define_property key value obj) <= S (List.length obj).
Proof.
  unfold define_property.
  destruct (is_array_index key && negb (has_property key obj)).
  - rewrite (Permutation_length (insert_index_Permutation obj key value)).
    simpl. lia.
  - apply set_property_length.
Qed.

Lemma define_property_NoDup obj k v :
  NoDup (Object_keys obj) -> NoDup (Object_keys (define_property k v obj)).
Proof.
  intros Hnd. unfold define_property.
  destruct (is_array_index k && negb (has_property k obj)) eqn:Hnew.
  - apply andb_prop in Hnew. destruct Hnew as [_ Hnew].
    apply negb_true_iff, has_property_false in Hnew.
    apply (Permutation_NoDup (l := k :: Object_keys obj)).
    + symmetry. unfold Object_keys.
      exact (Permutation_map fst (insert_index_Permutation obj k v)).
    + now constructor.
  - now apply set_property_NoDup.
Qed.

Lemma define_property_keys_In obj k k' v :
  In k (Object_keys (define_property k' v obj))
  <-> k = k' \/ In k (Object_keys obj).
Proof.
  rewrite !In_keys_get_property, get_define_property.
  destruct (String.eqb_spec k k') as [->|Hne].
  - split; [tauto | discriminate].
  - tauto.
Qed.

(** A new array index goes to its place among the array indices. *)
Lemma insert_index_keys (indices others : list string) :
  Forall (fun k => is_array_index k = true) indices ->
  Forall (fun k => is_array_index k = false) others ->
  forall obj k v,
    Object_keys obj = indices ++ others ->
    Object_keys (insert_index k v obj)
    = insert_ascending k indices ++ others.
Proof.
  intros Hindices Hothers.
  induction Hindices as [|i indices Hi Hindices IH]; intros obj k v Hkeys.
  - simpl in *. destruct obj as [|[k0 v0] rest]; simpl in *.
    + now subst others.
    + subst others. inversion Hothers as [|? ? Hk0 _]; subst.
      now rewrite Hk0.
  - destruct obj as [|[k0 v0] rest]; simpl in Hkeys; [discriminate|].
    injection Hkeys as -> Hrest. simpl. rewrite Hi. simpl.
    destruct (index_value i <? index_value k)%N; simpl.
    + f_equal. exact (IH rest k v Hrest).
    + do 2 f_equal. exact Hrest.
Qed.

Lemma fold_define_property_NoDup {X : Type} (g : X -> string * V)
  (xs : list X) obj :
  NoDup (Object_keys obj) ->
  NoDup (Object_keys
           (fold_left
              (fun acc x => define_property (fst (g x)) (snd (g x)) acc)
              xs obj)).
Proof.
  revert obj. induction xs as [|x xs IH]; intros obj Hnd; simpl.
  - assumption.
  - apply IH. now apply define_property_NoDup.
Qed.

Lemma in_property_order_app (entries : list (string * V)) k v :
  in_property_order (entries ++ [(k, v)])
  = define_property k v (in_property_order entries).
Proof. unfold in_property_order. now rewrite fold_left_app. Qed.

Lemma in_property_order_NoDup (entries : list (string * V)) :
  NoDup (Object_keys (in_property_order entries)).
Proof.
  unfold in_property_order.
  apply (fold_define_property_NoDup (fun kv => kv)). constructor.
Qed.

Lemma in_property_order_keys_In (entries : list (string * V)) k :
  In k (Object_keys (in_property_order entries)) <-> In k (map fst entries).
Proof.
  induction entries as [|[k' v'] entries IH] using rev_ind.
  - reflexivity.
  - rewrite in_property_order_app, define_property_keys_In, IH.
    rewrite map_app, in_app_iff. simpl. intuition congruence.
Qed.

(** The object of a list of entries with distinct keys has each entry. *)
Lemma in_property_order_get (entries : list (string * V)) k :
  NoDup (map fst entries) ->
  get_property k (in_property_order entries) = get_property k entries.
Proof.
  induction entries as [|[k' v'] entries IH] using rev_ind; intros Hnd.
  - reflexivity.
  - rewrite in_property_order_app, get_define_property, get_property_app.
    rewrite map_app in Hnd. simpl in Hnd.
    assert (Hnew : ~ In k' (map fst entries)).
    { intros Hin. apply NoDup_remove_2 in Hnd. apply Hnd.
      rewrite app_nil_r. exact Hin. }
    apply NoDup_remove_1 in Hnd. rewrite app_nil_r in Hnd.
    simpl. destruct (String.eqb_spec k k') as [->|Hne].
    + apply get_property_None in Hnew. now rewrite Hnew.
    + rewrite (IH Hnd). now destruct (get_property k entries).
Qed.

Lemma in_property_order_In (entries : list (string * V)) k v :
  NoDup (map fst entries) ->
  In (k, v) (in_property_order entries) <-> In (k, v) entries.
Proof.
  intros Hnd. split; intros Hin.
  - apply get_property_In. rewrite <- (in_property_order_get _ _ Hnd).
    apply In_get_property; [apply in_property_order_NoDup | exact Hin].
  - apply get_property_In. rewrite (in_property_order_get _ _ Hnd).
    now apply In_get_property.
Qed.

Lemma in_property_order_length (entries : list (string * V)) :
  List.length (in_property_order entries) <= List.length entries.
Proof.
  induction entries as [|[k' v'] entries IH] using rev_ind; [simpl; lia|].
  rewrite in_property_order_app, length_app. simpl.
  pose proof (define_property_length (in_property_order entries) k' v').
  lia.
Qed.

End PropertyOrder.

Lemma insert_ascending_In (k x : string) (keys : list string) :
  In x (insert_ascending k keys) <-> x = k \/ In x keys.
Proof.
  induction keys as [|k' rest IH]; simpl.
  - intuition congruence.
  - destruct (index_value k' <? index_value k)%N; simpl.
    + rewrite IH. intuition congruence.
    + intuition congruence.
Qed.

Lemma ascending_app (keys : list string) (k : string) :
  ascending (keys ++ [k]) = insert_ascending k (ascending keys).
Proof. unfold ascending. now rewrite fold_left_app. Qed.

Lemma ascending_In (keys : list string) (x : string) :
  In x (ascending keys) <-> In x keys.
Proof.
  induction keys as [|k keys IH] using rev_ind; [reflexivity|].
  rewrite ascending_app, insert_ascending_In, IH, in_app_iff. simpl.
  intuition congruence.
Qed.

Lemma insert_ascending_sorted (k : string) (keys : list string) :
  StronglySorted (fun a b => (index_value a <= index_value b)%N) keys ->
  StronglySorted (fun a b => (index_value a <= index_value b)%N)
    (insert_ascending k keys).
Proof.
  induction 1 as [|k' rest Hrest IH Hall]; simpl.
  - repeat constructor.
  - destruct (N.ltb_spec (index_value k') (index_value k)) as [Hlt|Hge].
    + constructor; [exact IH|].
      apply Forall_forall. intros x Hx. apply insert_ascending_In in Hx.
      destruct Hx as [->|Hx]; [lia|].
      rewrite Forall_forall in Hall. now apply Hall.
    + constructor; [now constructor|].
      constructor; [exact Hge|].
      apply Forall_forall. intros x Hx.
      rewrite Forall_forall in Hall. specialize (Hall x Hx). lia.
Qed.

(** The array indices of a property order are in ascending order. *)
Lemma ascending_sorted (keys : list string) :
  StronglySorted (fun a b => (index_value a <= index_value b)%N)
    (ascending keys).
Proof.
  induction keys as [|k keys IH] using rev_ind; [constructor|].
  rewrite ascending_app. now apply insert_ascending_sorted.
Qed.

Lemma ascending_Permutation (keys : list string) :
  Permutation (ascending keys) keys.
Proof.
  induction keys as [|k keys IH] using rev_ind; [reflexivity|].
  rewrite ascending_app.
  transitivity (k :: ascending keys).
  - clear IH. induction (ascending keys) as [|k' rest IH]; simpl;
      [reflexivity|].
    destruct (index_value k' <? index_value k)%N; [|reflexivity].
    rewrite IH. apply perm_swap.
  - rewrite IH. apply Permutation_cons_append.
Qed.

Lemma property_order_In (keys : list string) (k : string) :
  In k (property_order keys) <-> In k keys.
Proof.
  unfold property_order.
  rewrite in_app_iff, ascending_In, !filter_In.
  destruct (is_array_index k); simpl; intuition congruence.
Qed.

Lemma property_order_Permutation (keys : list string) :
  Permutation (property_order keys) keys.
Proof.
  unfold property_order. rewrite ascending_Permutation.
  induction keys as [|k keys IH]; simpl; [reflexivity|].
  destruct (is_array_index k); simpl.
  - now rewrite IH.
  - rewrite <- Permutation_middle. now rewrite IH.
Qed.

(** Names none of which is an array index are in property order as they
    stand. *)
Lemma property_order_ordinary (keys : list string) :
  (forall k, In k keys -> is_array_index k = false) ->
  property_order keys = keys.
Proof.
  intros Hordinary. unfold property_order.
  induction keys as [|k keys IH]; [reflexivity|].
  simpl. rewrite (Hordinary k (or_introl eq_refl)). simpl.
  assert (Hrest : forall k', In k' keys -> is_array_index k' = false).
  { intros k' Hk'. apply Hordinary. now right. }
  specialize (IH Hrest).
  assert (Hnone : filter is_array_index keys = []).
  { clear IH. induction keys as [|k' keys IH]; [reflexivity|].
    simpl. rewrite (Hrest k' (or_introl eq_refl)). apply IH.
    - intros k0 [<-|Hk0]; apply Hordinary; [now left | now right; right].
    - intros k0 Hk0. apply Hrest. now right. }
  rewrite Hnone in *. simpl in *. now f_equal.
Qed.

Lemma property_order_app (keys : list string) (k : string) :
  property_order (keys ++ [k])
  = if is_array_index k
    then insert_ascending k (ascending (filter is_array_index keys))
         ++ filter (fun k => negb (is_array_index k)) keys
    else property_order keys ++ [k].
Proof.
  unfold property_order. rewrite !filter_app. simpl.
  destruct (is_array_index k); simpl.
  - now rewrite ascending_app, app_nil_r.
  - now rewrite !app_nil_r, app_assoc.
Qed.

(** The own properties of an object created from entries with distinct
    keys are in the property order of the keys. *)
Lemma in_property_order_keys {V : Type} (entries : list (string * V)) :
  NoDup (map fst entries) ->
  Object_keys (in_property_order entries) = property_order (map fst entries).
Proof.
  induction entries as [|[k v] entries IH] using rev_ind; intros Hnd.
  - reflexivity.
  - rewrite map_app in Hnd. simpl in Hnd.
    assert (Hnew : ~ In k (map fst entries)).
    { intros Hin. apply NoDup_remove_2 in Hnd. apply Hnd.
      rewrite app_nil_r. exact Hin. }
    apply NoDup_remove_1 in Hnd. rewrite app_nil_r in Hnd.
    specialize (IH Hnd).
    assert (Hfresh : has_property k (in_property_order entries) = false).
    { apply has_property_false. now rewrite in_property_order_keys_In. }
    rewrite in_property_order_app, map_app. cbn [map fst].
    rewrite property_order_app.
    unfold define_property. rewrite Hfresh.
    destruct (is_array_index k) eqn:Hk; simpl.
    + apply insert_index_keys.
      * apply Forall_forall. intros x Hx.
        apply (proj1 (ascending_In _ _)) in Hx.
        apply filter_In in Hx. tauto.
      * apply Forall_forall. intros x Hx. apply filter_In in Hx.
        now apply negb_true_iff.
      * exact IH.
    + rewrite set_property_keys, Hfresh. now rewrite IH.
Qed.



Lemma record_ext {V : Type} (first second : JSRecord V) :
  Object_keys first = Object_keys second ->
  NoDup (Object_keys first) ->
  (forall k, get_property k first = get_property k second) ->
  first = second.
Proof.
  revert second.
  induction first as [|[k v] first IH]; intros [|[k' v'] second];
    simpl; intros Hkeys Hnd Hget; try discriminate; [reflexivity|].
  injection Hkeys as <- Hkeys.
  inversion Hnd as [|? ? Hnew Hnd']; subst.
  pose proof (Hget k) as Hk. rewrite String.eqb_refl in Hk.
  injection Hk as <-. f_equal. apply IH; [assumption | assumption |].
  intros name. specialize (Hget name).
  destruct (String.eqb_spec name k) as [Heq|Hne]; [|exact Hget].
  rewrite Heq.
  assert (Hnone : get_property k first = None)
    by now apply get_property_None.
  rewrite Hnone. symmetry. apply get_property_None.
  unfold Object_keys in *. now rewrite <- Hkeys.
Qed.

(** [Object.fromEntries] of entries that are in property order creates the
    properties as [define_property] does. *)
Lemma Object_fromEntries_in_property_order {V : Type}
  (entries : list (string * V)) :
  NoDup (map fst entries) ->
  property_order (map fst entries) = map fst entries ->
  Object_fromEntries entries = in_property_order entries.
Proof.
  intros Hnd Hordered. rewrite (Object_fromEntries_distinct entries Hnd).
  apply record_ext.
  - rewrite in_property_order_keys by exact Hnd. now rewrite Hordered.
  - exact Hnd.
  - intros k. now rewrite in_property_order_get.
Qed.

(* ------------------------------------------------------------------ *)
(** ** [JSON.parse] does not run out of fuel *)

Section Fuel.

Import JSON.

Lemma skip_ws_length (s : string) :
  String.length (skip_ws s) <= String.length s.
Proof.
  induction s as [|c s IH]; simpl; [lia|].
  destruct (is_ws c); simpl; lia.
Qed.

Lemma head_is_length (c : ascii) (s r : string) :
  head_is c s = Some r -> String.length s = S (String.length r).
Proof.
  destruct s as [|c' s]; simpl; [discriminate|].
  destruct (Ascii.eqb c c'); [|discriminate]. now intros [= ->].
Qed.

Lemma strip_prefix_length (p s r : string) :
  strip_prefix p s = Some r ->
  String.length s = String.length p + String.length r.
Proof.
  revert s. induction p as [|a p IH]; intros s; simpl.
  - now intros [= ->].
  - destruct s as [|b s]; [discriminate|].
    destruct (Ascii.eqb a b); [|discriminate].
    intros H. apply IH in H. simpl. lia.
Qed.

Lemma take_digits_length (s : string) :
  String.length (snd (take_digits s)) <= String.length s.
Proof.
  induction s as [|c s IH]; simpl; [lia|].
  destruct (is_digit c); simpl; [|lia].
  destruct (take_digits s). simpl in *. lia.
Qed.

Lemma parse_items_length (s : string) :
  forall items r,
    parse_items s = Some (items, r) -> String.length r < String.length s.
Proof.
  induction s as [s IH] using (well_founded_induction
                                 (Wf_nat.well_founded_ltof _ String.length)).
  unfold Wf_nat.ltof in IH.
  intros items r. destruct s as [|c rest]; simpl; [discriminate|].
  destruct (Ascii.eqb c quote).
  { intros [= _ ->]. lia. }
  destruct (Ascii.eqb c backslash).
  - destruct rest as [|e rest1]; [discriminate|].
    destruct (Ascii.eqb e "u").
    + destruct rest1 as [|h1 [|h2 [|h3 [|h4 rest2]]]]; try discriminate.
      destruct (hex4 h1 h2 h3 h4); [|discriminate].
      destruct (parse_items rest2) as [[items' r']|] eqn:Hrest;
        [|discriminate].
      intros [= _ ->]. apply IH in Hrest; simpl in *; lia.
    + destruct (simple_escape e); [|discriminate].
      destruct (parse_items rest1) as [[items' r']|] eqn:Hrest;
        [|discriminate].
      intros [= _ ->]. apply IH in Hrest; simpl in *; lia.
  - destruct (Nat.ltb (nat_of_ascii c) 32); [discriminate|].
    destruct (parse_items rest) as [[items' r']|] eqn:Hrest; [|discriminate].
    intros [= _ ->]. apply IH in Hrest; simpl in *; lia.
Qed.

Lemma parse_string_length (s x r : string) :
  parse_string s = Some (x, r) -> String.length r < String.length s.
Proof.
  unfold parse_string.
  destruct (parse_items s) as [[items r']|] eqn:Hitems; [|discriminate].
  intros [= _ <-]. now apply parse_items_length in Hitems.
Qed.

Lemma parse_number_length (s x r : string) :
  parse_number s = Some (x, r) -> String.length r < String.length s.
Proof.
  unfold parse_number.
  destruct (parse_sign s) as [sgn s1] eqn:Hsign.
  assert (H1 : String.length s1 <= String.length s).
  { unfold parse_sign in Hsign. destruct s as [|c s']; [now inversion Hsign|].
    destruct (Ascii.eqb c "-"); inversion Hsign; subst; simpl; lia. }
  destruct (parse_int s1) as [[i s2]|] eqn:Hint; [|discriminate].
  assert (H2 : String.length s2 < String.length s1).
  { unfold parse_int in Hint. destruct s1 as [|c s']; [discriminate|].
    destruct (Ascii.eqb c "0"); [inversion Hint; subst; simpl; lia|].
    destruct (is_digit c); [|discriminate].
    pose proof (take_digits_length s') as Hd.
    destruct (take_digits s') as [ds r']. inversion Hint; subst.
    simpl in *. lia. }
  destruct (parse_frac s2) as [[f s3]|] eqn:Hfrac; [|discriminate].
  assert (H3 : String.length s3 <= String.length s2).
  { unfold parse_frac in Hfrac. destruct s2 as [|c s']; [inversion Hfrac; subst; lia|].
    destruct (Ascii.eqb c ".").
    - pose proof (take_digits_length s') as Hd.
      destruct (take_digits s') as [ds r']. destruct ds; [discriminate|].
      inversion Hfrac; subst. simpl in *. lia.
    - inversion Hfrac; subst. lia. }
  destruct (parse_exp s3) as [[e s4]|] eqn:Hexp; [|discriminate].
  assert (H4 : String.length s4 <= String.length s3).
  { unfold parse_exp in Hexp. destruct s3 as [|c s']; [inversion Hexp; subst; lia|].
    destruct (Ascii.eqb c "e" || Ascii.eqb c "E").
    - destruct s' as [|d s''].
      + simpl in Hexp. discriminate.
      + destruct (Ascii.eqb d "+" || Ascii.eqb d "-").
        * pose proof (take_digits_length s'') as Hd.
          destruct (take_digits s'') as [ds r']. destruct ds; [discriminate|].
          inversion Hexp; subst. simpl in *. lia.
        * pose proof (take_digits_length (String d s'')) as Hd.
          destruct (take_digits (String d s'')) as [ds r'].
          destruct ds; [discriminate|].
          inversion Hexp; subst. simpl in *. lia.
    - inversion Hexp; subst. lia. }
  intros [= _ <-]. lia.
Qed.

Ltac break_match H :=
  match type of H with
  | context [match ?x with _ => _ end] =>
      let E := fresh "E" in destruct x eqn:E; try discriminate H
  end.

Ltac skip_ws_facts :=
  repeat match goal with
    | H : context [skip_ws ?s] |- _ =>
        lazymatch goal with
        | _ : String.length (skip_ws s) <= String.length s |- _ => fail
        | _ => pose proof (skip_ws_length s)
        end
    end.

Ltac length_facts :=
  skip_ws_facts;
  repeat match goal with
    | H : head_is _ _ = Some _ |- _ => apply head_is_length in H
    | H : strip_prefix _ _ = Some _ |- _ =>
        apply strip_prefix_length in H; simpl in H
    | H : parse_string _ = Some _ |- _ => apply parse_string_length in H
    | H : parse_number _ = Some _ |- _ => apply parse_number_length in H
    end.

(** A value takes at least one character of the text. *)
Lemma parse_consumes (fuel : nat) :
  (forall s v r,
      parse_value fuel s = Some (v, r) ->
      String.length r < String.length s)
  /\ (forall acc s v r,
         parse_elements fuel acc s = Some (v, r) ->
         String.length r < String.length s)
  /\ (forall acc s v r,
         parse_members fuel acc s = Some (v, r) ->
         String.length r < String.length s).
Proof.
  induction fuel as [|fuel (IHv & IHe & IHm)].
  - repeat split; intros; discriminate.
  - split; [|split].
    + intros s v r H. cbn [parse_value] in H.
      repeat break_match H;
        try (injection H as <- <-);
        repeat match goal with
          | H' : parse_elements fuel _ _ = Some _ |- _ => apply IHe in H'
          | H' : parse_members fuel _ _ = Some _ |- _ => apply IHm in H'
          end;
        length_facts; lia.
    + intros acc s v r H. cbn [parse_elements] in H.
      repeat break_match H;
        try (injection H as <- <-);
        repeat match goal with
          | H' : parse_value fuel _ = Some _ |- _ => apply IHv in H'
          | H' : parse_elements fuel _ _ = Some _ |- _ => apply IHe in H'
          end;
        length_facts; lia.
    + intros acc s v r H. cbn [parse_members] in H.
      repeat break_match H;
        try (injection H as <- <-);
        repeat match goal with
          | H' : parse_value fuel _ = Some _ |- _ => apply IHv in H'
          | H' : parse_members fuel _ _ = Some _ |- _ => apply IHm in H'
          end;
        length_facts; lia.
Qed.

Ltac consumed :=
  skip_ws_facts;
  repeat match goal with
    | H : parse_value _ _ = Some _ |- _ =>
        apply (proj1 (parse_consumes _)) in H
    end;
  length_facts.

(** Two runs with enough fuel for the text read the same value. *)
Lemma parse_fuel_independent (fuel : nat) :
  (forall fuel' s,
      2 * String.length s + 1 <= fuel ->
      2 * String.length s + 1 <= fuel' ->
      parse_value fuel s = parse_value fuel' s)
  /\ (forall fuel' acc s,
         2 * String.length s + 2 <= fuel ->
         2 * String.length s + 2 <= fuel' ->
         parse_elements fuel acc s = parse_elements fuel' acc s)
  /\ (forall fuel' acc s,
         2 * String.length s + 2 <= fuel ->
         2 * String.length s + 2 <= fuel' ->
         parse_members fuel acc s = parse_members fuel' acc s).
Proof.
  induction fuel as [|fuel (IHv & IHe & IHm)].
  - repeat split; intros; lia.
  - split; [|split].
    + intros [|fuel'] s Hfuel Hfuel'; [lia|].
      cbn [parse_value].
      repeat match goal with
        | |- context [match ?x with _ => _ end] => destruct x eqn:?
        end;
        try reflexivity.
      * apply IHm; consumed; lia.
      * apply IHe; consumed; lia.
    + intros [|fuel'] acc s Hfuel Hfuel'; [lia|].
      cbn [parse_elements].
      rewrite <- (IHv fuel' s) by lia.
      repeat match goal with
        | |- context [match ?x with _ => _ end] => destruct x eqn:?
        end;
        try reflexivity.
      apply IHe; consumed; lia.
    + intros [|fuel'] acc s Hfuel Hfuel'; [lia|].
      cbn [parse_members].
      repeat first
        [ match goal with
          | |- context [parse_value fuel' ?r] =>
              rewrite <- (IHv fuel' r) by (consumed; lia)
          end
        | match goal with
          | |- context [match ?x with _ => _ end] => destruct x eqn:?
          end ];
        try reflexivity.
      apply IHm; consumed; lia.
Qed.

(** [parse] gives [parse_value] all the fuel it can use: more fuel reads
    the same value. *)
Lemma parse_fuel_enough (text : string) (fuel : nat) :
  2 * String.length text + 2 <= fuel ->
  parse_value fuel text = parse_value (2 * String.length text + 2) text.
Proof.
  intros Hfuel. apply (proj1 (parse_fuel_independent fuel)); lia.
Qed.

End Fuel.

(* ------------------------------------------------------------------ *)
(** ** The join of names and outputs *)

Lemma truthy_Some (s : string) :
  truthy (Some s) = negb (String.eqb s "").
Proof. reflexivity. Qed.

(** Looking a name up in the record of the usable outputs gives the raw
    value of the name. *)
Lemma stackOutputRecord_fold (outputs : list Output) (name : string) :
  forall accumulator : JSRecord string,
    get_property name
      (fold_left
         (fun accumulator outputEntry =>
            match OutputKey outputEntry, OutputValue outputEntry with
            | Some key, Some value => define_property key value accumulator
            | _, _ => accumulator
            end)
         (filter
            (fun output =>
               truthy (OutputValue output) && truthy (OutputKey output))
            outputs)
         accumulator)
    = match rawOutputValue outputs name with
      | Some value => Some value
      | None => get_property name accumulator
      end.
Proof.
  induction outputs as [|[key value] rest IH]; intros accumulator; simpl.
  - reflexivity.
  - destruct value as [value|], key as [key|]; simpl;
      try (rewrite ?andb_false_r; rewrite IH;
           destruct (rawOutputValue rest name); reflexivity).
    destruct (String.eqb_spec value "") as [->|Hvalue]; simpl.
    { rewrite IH, andb_false_r.
      destruct (rawOutputValue rest name); reflexivity. }
    destruct (String.eqb_spec key "") as [->|Hkey]; simpl.
    { rewrite IH, andb_false_r.
      destruct (rawOutputValue rest name); reflexivity. }
    rewrite IH, get_define_property, !andb_true_r.
    rewrite (String.eqb_sym name key).
    destruct (rawOutputValue rest name); [reflexivity|].
    destruct (String.eqb key name); reflexivity.
Qed.

Lemma stackOutputRecord_lookup (outputs : list Output) (name : string) :
  get_property name (stackOutputRecord_of outputs)
  = rawOutputValue outputs name.
Proof.
  unfold stackOutputRecord_of. rewrite stackOutputRecord_fold. simpl.
  destruct (rawOutputValue outputs name); reflexivity.
Qed.

(** A raw value is the value of an output entry that carries the name, and
    neither is empty. *)
Lemma rawOutputValue_Some (outputs : list Output) (name value : string) :
  rawOutputValue outputs name = Some value ->
  name <> "" /\ value <> "" /\
  exists output,
    In output outputs /\ OutputKey output = Some name
    /\ OutputValue output = Some value.
Proof.
  induction outputs as [|output rest IH]; simpl; [discriminate|].
  destruct (rawOutputValue rest name) as [value'|].
  - intros [= ->]. destruct (IH eq_refl) as (Hn & Hv & o & Hin & Hk & Hval).
    repeat split; try assumption. exists o. tauto.
  - destruct (OutputKey output) as [key|] eqn:Hkey; [|discriminate].
    destruct (OutputValue output) as [value'|] eqn:Hvalue; [|discriminate].
    destruct (String.eqb_spec key name) as [->|]; [|discriminate].
    destruct (String.eqb_spec name "") as [|Hn]; [discriminate|].
    destruct (String.eqb_spec value' "") as [|Hv]; [discriminate|].
    simpl. intros [= <-]. repeat split; try assumption.
    exists output. tauto.
Qed.

(** A name has no raw value when every output entry that carries it has
    no value or an empty one. *)
Lemma rawOutputValue_None (outputs : list Output) (name : string) :
  (forall output,
      In output outputs -> OutputKey output = Some name ->
      OutputValue output = None \/ OutputValue output = Some "") ->
  rawOutputValue outputs name = None.
Proof.
  intros Hall. destruct (rawOutputValue outputs name) as [value|] eqn:Hraw;
    [|reflexivity].
  apply rawOutputValue_Some in Hraw.
  destruct Hraw as (_ & Hv & o & Hin & Hk & Hval).
  destruct (Hall o Hin Hk) as [H|H]; rewrite H in Hval; congruence.
Qed.





(** Reading a name in the record of the usable outputs gives the raw value
    of the name; without one, the member of [Object.prototype] of that
    name, if there is one. *)
Lemma read_stackOutputRecord (outputs : list Output) (name : string) :
  read_property name (stackOutputRecord_of outputs)
  = match rawOutputValue outputs name with
    | Some value => Some (StringValue value)
    | None =>
        if own_name name then None else Some (PrototypeMember name)
    end.
Proof.
  unfold read_property, own_name. rewrite stackOutputRecord_lookup.
  destruct (rawOutputValue outputs name); [reflexivity|].
  now destruct (includes Object_prototype_members name).
Qed.

(** Reading the record of the usable outputs never gives the empty
    string. *)
Lemma read_not_empty (outputs : list Output) (name : string)
  (value : PropertyValue) :
  read_property name (stackOutputRecord_of outputs) = Some value ->
  is_empty_string value = false.
Proof.
  rewrite read_stackOutputRecord.
  destruct (rawOutputValue outputs name) as [raw|] eqn:Hraw.
  - intros [= <-]. apply rawOutputValue_Some in Hraw.
    destruct Hraw as (_ & Hv & _). simpl.
    now destruct (String.eqb_spec raw "").
  - destruct (own_name name); [discriminate|]. now intros [= <-].
Qed.

(** The payload of an entry is the object of the resolved pairs of its
    names, when each of its names without a raw value is the name of no
    member of [Object.prototype]. *)
Lemma outputData_fold (outputs : list Output) (names : list string) :
  (forall name,
      In name names -> rawOutputValue outputs name = None ->
      own_name name = true) ->
  forall accumulator : JSRecord PropertyValue,
    fold_left
      (fun accumulator outputName =>
         match read_property outputName (stackOutputRecord_of outputs) with
         | None => accumulator
         | Some value =>
             if is_empty_string value then accumulator
             else define_property outputName value accumulator
         end)
      names accumulator
    = fold_left
        (fun obj kv => define_property (fst kv) (snd kv) obj)
        (resolved outputs names) accumulator.
Proof.
  induction names as [|name names IH]; intros Hown accumulator; simpl.
  - reflexivity.
  - unfold resolved in *. simpl. rewrite fold_left_app.
    rewrite read_stackOutputRecord.
    destruct (rawOutputValue outputs name) as [value|] eqn:Hraw.
    + apply rawOutputValue_Some in Hraw. destruct Hraw as (_ & Hv & _).
      simpl. destruct (String.eqb_spec value ""); [contradiction|].
      apply IH. intros other Hin. apply Hown. now right.
    + rewrite (Hown name (or_introl eq_refl) Hraw). simpl.
      apply IH. intros other Hin. apply Hown. now right.
Qed.

Lemma outputData_resolved (outputs : list Output)
  (entry : BackendOutputEntryStackMetadata) :
  (forall name,
      In name (stackOutputs entry) -> rawOutputValue outputs name = None ->
      own_name name = true) ->
  outputData_of (stackOutputRecord_of outputs) entry
  = in_property_order (resolved outputs (stackOutputs entry)).
Proof.
  intros Hown. unfold outputData_of, in_property_order.
  now apply outputData_fold.
Qed.

Lemma resolved_nil (outputs : list Output) (names : list string) :
  (forall name, In name names -> rawOutputValue outputs name = None) ->
  resolved outputs names = [].
Proof.
  unfold resolved. induction names as [|name names IH]; simpl; intros Hall.
  - reflexivity.
  - rewrite (Hall name (or_introl eq_refl)). simpl.
    apply IH. intros other Hin. apply Hall. now right.
Qed.

Lemma resolved_without_outputs (names : list string) :
  resolved [] names = [].
Proof. apply resolved_nil. reflexivity. Qed.

Lemma NoDup_keys_filter {V : Type} (p : string * V -> bool)
  (entries : list (string * V)) :
  NoDup (map fst entries) -> NoDup (map fst (filter p entries)).
Proof.
  induction entries as [|entry entries IH]; simpl; intros Hnd.
  - constructor.
  - inversion Hnd as [|? ? Hnotin Hnd']; subst.
    destruct (p entry); simpl; [|now apply IH].
    constructor; [|now apply IH].
    intros Hin. apply Hnotin. apply in_map_iff in Hin.
    destruct Hin as (x & Heq & Hx). apply filter_In in Hx.
    apply in_map_iff. exists x. tauto.
Qed.

(* ------------------------------------------------------------------ *)
(** ** The schema *)

Lemma includes_In (names : list string) (name : string) :
  includes names name = true <-> In name names.
Proof.
  unfold includes. rewrite existsb_exists. split.
  - intros (x & Hin & Heq). apply String.eqb_eq in Heq. now subst.
  - intros Hin. exists name. now rewrite String.eqb_refl.
Qed.

Lemma unique_NoDup (names : list string) :
  unique names = true <-> NoDup names.
Proof.
  induction names as [|name names IH]; simpl.
  - split; [constructor | reflexivity].
  - rewrite andb_true_iff, negb_true_iff, IH. split.
    + intros [Hnotin Hnd]. constructor; [|assumption].
      rewrite <- includes_In. congruence.
    + intros Hnd. inversion Hnd as [|? ? Hnotin Hnd']; subst.
      split; [|assumption].
      destruct (includes names name) eqn:Hinc; [|reflexivity].
      apply includes_In in Hinc. contradiction.
Qed.

Lemma strings_of_Some (values : list JSValue) (names : list string) :
  strings_of values = Some names <-> values = map JString names.
Proof.
  revert names. induction values as [|value values IH]; intros names; simpl.
  - split.
    + intros [= <-]. reflexivity.
    + destruct names; [reflexivity | discriminate].
  - destruct value; try (split; [discriminate|];
                         destruct names; discriminate).
    destruct (strings_of values) as [names'|] eqn:Hrest.
    + split.
      * intros [= <-]. simpl. f_equal. now apply IH.
      * destruct names as [|name names]; [discriminate|].
        intros [= -> Hvalues]. apply IH in Hvalues. congruence.
    + split; [discriminate|].
      destruct names as [|name names]; [discriminate|].
      intros [= -> Hvalues]. apply IH in Hvalues. discriminate.
Qed.

(** What the entry schema accepts, and what it makes of it. *)
Lemma entry_schema_accepts (value : JSValue)
  (entry : BackendOutputEntryStackMetadata) :
  backendOutputEntryStackMetadataSchema_parse value = Some entry <->
  exists properties,
    value = JObject properties
    /\ get_property "version" properties = Some (JString (version entry))
    /\ get_property "stackOutputs" properties
       = Some (JArray (map JString (stackOutputs entry)))
    /\ stackOutputs entry <> []
    /\ NoDup (stackOutputs entry).
Proof.
  unfold backendOutputEntryStackMetadataSchema_parse. split.
  - destruct value as [| | | | |properties]; try discriminate.
    destruct (get_property "version" properties) as [[| | |v| |]|]
      eqn:Hversion; try discriminate.
    destruct (get_property "stackOutputs" properties)
      as [[| | | |elements|]|] eqn:Houtputs; try discriminate.
    destruct (strings_of elements) as [names|] eqn:Hnames; [|discriminate].
    destruct (Nat.eqb_spec (List.length names) 0) as [|Hlen];
      [discriminate|].
    destruct (unique names) eqn:Hunique; [|discriminate].
    simpl. intros [= <-]. simpl. exists properties.
    apply strings_of_Some in Hnames. apply unique_NoDup in Hunique.
    split; [reflexivity|]. split; [assumption|].
    split; [congruence|]. split; [|assumption].
    intros ->. now apply Hlen.
  - intros (properties & -> & Hversion & Houtputs & Hne & Hnd).
    rewrite Hversion, Houtputs.
    rewrite (proj2 (strings_of_Some _ _) eq_refl).
    destruct (Nat.eqb_spec (List.length (stackOutputs entry)) 0) as [Hlen|_].
    + apply length_zero_iff_nil in Hlen. contradiction.
    + rewrite (proj2 (unique_NoDup _) Hnd). simpl. now destruct entry.
Qed.

Lemma malformed_refused (value : JSValue) :
  malformed value ->
  backendOutputEntryStackMetadataSchema_parse value = None.
Proof.
  intros Hbad.
  destruct (backendOutputEntryStackMetadataSchema_parse value)
    as [entry|] eqn:Hparse; [|reflexivity].
  apply entry_schema_accepts in Hparse.
  destruct Hparse as (properties & -> & Hversion & Houtputs & Hne & Hnd).
  destruct (Hbad properties eq_refl) as [Hnone|Hnot].
  - congruence.
  - exfalso. apply Hnot. exists (stackOutputs entry). tauto.
Qed.

Lemma refused_In (metadata : JSRecord JSValue) (key : string) :
  In key (refused metadata) <->
  exists value,
    In (key, value) metadata
    /\ backendOutputEntryStackMetadataSchema_parse value = None.
Proof.
  unfold refused. rewrite in_flat_map. split.
  - intros ([k v] & Hin & Hmem). simpl in Hmem.
    destruct (backendOutputEntryStackMetadataSchema_parse v) eqn:Hparse;
      simpl in Hmem; [contradiction|].
    destruct Hmem as [<-|[]]. now exists v.
  - intros (value & Hin & Hparse). exists (key, value). simpl.
    rewrite Hparse. simpl. tauto.
Qed.

Lemma accepted_In (metadata : JSRecord JSValue) (key : string)
  (entry : BackendOutputEntryStackMetadata) :
  In (key, entry) (accepted metadata) <->
  exists value,
    In (key, value) metadata
    /\ backendOutputEntryStackMetadataSchema_parse value = Some entry.
Proof.
  unfold accepted. rewrite in_flat_map. split.
  - intros ([k v] & Hin & Hmem). simpl in Hmem.
    destruct (backendOutputEntryStackMetadataSchema_parse v) eqn:Hparse;
      simpl in Hmem; [|contradiction].
    destruct Hmem as [[= <- <-]|[]]. now exists v.
  - intros (value & Hin & Hparse). exists (key, value). simpl.
    rewrite Hparse. simpl. tauto.
Qed.

(** When no entry is refused, the accepted entries stand under the keys
    of the metadata, in their order. *)
Lemma accepted_keys (metadata : JSRecord JSValue) :
  refused metadata = [] ->
  Object_keys (accepted metadata) = Object_keys metadata.
Proof.
  unfold refused, accepted, Object_keys.
  induction metadata as [|[key value] rest IH]; simpl; [reflexivity|].
  destruct (backendOutputEntryStackMetadataSchema_parse value); simpl.
  - intros Hrest. now rewrite IH.
  - discriminate.
Qed.

Lemma schema_parse_Return (metadata : JSRecord JSValue)
  (backendOutputMetadata : JSRecord BackendOutputEntryStackMetadata) :
  backendOutputStackMetadataSchema_parse metadata
  = Return backendOutputMetadata ->
  refused metadata = [] /\ backendOutputMetadata = accepted metadata.
Proof.
  unfold backendOutputStackMetadataSchema_parse.
  destruct (refused metadata); [|discriminate].
  intros [= <-]. tauto.
Qed.

(* ------------------------------------------------------------------ *)
(** ** The pre-filter *)

Lemma index_name_not (i : nat) (name : string) :
  match name with
  | String c _ => JSON.is_digit c = false
  | EmptyString => False
  end ->
  index_name i <> name.
Proof.
  unfold index_name. intros Hname Heq. subst name.
  destruct (Nat.to_uint i); simpl in Hname;
    solve [contradiction | discriminate].
Qed.

Lemma array_has_not (elements : list JSValue) (name : string) :
  match name with
  | String c _ => JSON.is_digit c = false
  | EmptyString => False
  end ->
  String.eqb name "length" = false ->
  prop_in name (JArray elements) = false.
Proof.
  intros Hname Hlength. simpl. rewrite Hlength. simpl.
  destruct (existsb _ _) eqn:Hex; [|reflexivity].
  apply existsb_exists in Hex. destruct Hex as (x & Hin & Heq).
  apply String.eqb_eq in Heq. subst x.
  apply in_map_iff in Hin. destruct Hin as (i & Heq & _).
  exfalso. exact (index_name_not i name Hname Heq).
Qed.

(** The predicate holds of the objects that have both properties, and of
    nothing else. *)
Lemma isBackendOutputEntryStackMetadata_spec (obj : JSValue) :
  isBackendOutputEntryStackMetadata obj = true <->
  exists properties,
    obj = JObject properties
    /\ has_property "version" properties = true
    /\ has_property "stackOutputs" properties = true.
Proof.
  unfold isBackendOutputEntryStackMetadata. split.
  - intros H.
    apply andb_true_iff in H. destruct H as [H Ho].
    apply andb_true_iff in H. destruct H as [H Hv].
    apply andb_true_iff in H. destruct H as [Hb Ht].
    destruct obj as [| | | |elements|properties];
      try discriminate Hb; try discriminate Ht.
    + rewrite (array_has_not elements "version") in Hv;
        [discriminate | reflexivity | reflexivity].
    + exists properties. simpl in Hv, Ho. tauto.
  - intros (properties & -> & Hv & Ho). simpl. now rewrite Hv, Ho.
Qed.

(* ------------------------------------------------------------------ *)
(** ** The second half of the routine *)

Lemma first_stack_present {A : Type}
  (stackDescription : DescribeStacksCommandOutput) (stack : Stack)
  (others : list Stack) (member : Stack -> option A) :
  Stacks stackDescription = Some (stack :: others) ->
  first_stack stackDescription member = Return (member stack)
  /\ optional_first_stack stackDescription member = member stack.
Proof.
  intros Hstacks. unfold first_stack, optional_first_stack.
  now rewrite Hstacks.
Qed.

Lemma fold_assign_property {X V : Type} (g : X -> string * V)
  (xs : list X) :
  forall obj : JSRecord V,
    fold_left (fun acc x => assign_property (fst (g x)) (snd (g x)) acc)
      xs obj
    = fold_left (fun acc kv => define_property (fst kv) (snd kv) acc)
        (map g (filter (fun x => assignable (fst (g x))) xs)) obj.
Proof.
  induction xs as [|x xs IH]; intros obj; simpl; [reflexivity|].
  rewrite IH. unfold assign_property, assignable.
  now destruct (String.eqb (fst (g x)) "__proto__").
Qed.

(** A stack that is not in progress and has outputs: the result has the
    groups of the validated entries whose key is assignable, created in
    their order. *)
Lemma reconstruct_groups
  (backendOutputMetadata : JSRecord BackendOutputEntryStackMetadata)
  (stackDescription : DescribeStacksCommandOutput) (stack : Stack)
  (others : list Stack) (outputs : list Output) :
  Stacks stackDescription = Some (stack :: others) ->
  in_progress stack = false ->
  Outputs stack = Some outputs ->
  reconstruct backendOutputMetadata stackDescription
  = Return
      (in_property_order
         (map (grouped outputs)
            (filter (fun kv => assignable (fst kv)) backendOutputMetadata))).
Proof.
  intros Hstacks Hprogress Houtputs.
  unfold reconstruct.
  rewrite (proj1 (first_stack_present _ _ _ StackStatus Hstacks)).
  rewrite (proj2 (first_stack_present _ _ _ Outputs Hstacks)).
  simpl. unfold in_progress in Hprogress. rewrite Hprogress, Houtputs.
  f_equal. unfold in_property_order.
  exact (fold_assign_property (grouped outputs) backendOutputMetadata []).
Qed.

Lemma keys_filter {V : Type} (p : string -> bool) (obj : JSRecord V) :
  map fst (filter (fun kv => p (fst kv)) obj) = filter p (map fst obj).
Proof.
  induction obj as [|[k v] obj IH]; simpl; [reflexivity|].
  destruct (p k); simpl; now rewrite IH.
Qed.

Lemma grouped_keys (outputs : list Output)
  (backendOutputMetadata : JSRecord BackendOutputEntryStackMetadata) :
  map fst (map (grouped outputs) backendOutputMetadata)
  = map fst backendOutputMetadata.
Proof. rewrite map_map. reflexivity. Qed.

(** The keys of the result: those of the entries that are assignable, in
    property order. *)
Lemma groups_keys (outputs : list Output)
  (backendOutputMetadata : JSRecord BackendOutputEntryStackMetadata) :
  NoDup (Object_keys backendOutputMetadata) ->
  Object_keys
    (in_property_order
       (map (grouped outputs)
          (filter (fun kv => assignable (fst kv)) backendOutputMetadata)))
  = property_order (filter assignable (Object_keys backendOutputMetadata)).
Proof.
  intros Hnd. rewrite in_property_order_keys; rewrite grouped_keys.
  - now rewrite keys_filter.
  - now apply NoDup_keys_filter.
Qed.

(** The group of an entry whose key is assignable. *)
Lemma groups_get (outputs : list Output)
  (backendOutputMetadata : JSRecord BackendOutputEntryStackMetadata)
  (key : string) (entry : BackendOutputEntryStackMetadata) :
  NoDup (Object_keys backendOutputMetadata) ->
  In (key, entry) backendOutputMetadata ->
  key <> "__proto__" ->
  get_property key
    (in_property_order
       (map (grouped outputs)
          (filter (fun kv => assignable (fst kv)) backendOutputMetadata)))
  = Some (BackendOutputEntry.make (version entry)
            (outputData_of (stackOutputRecord_of outputs) entry)).
Proof.
  intros Hnd Hin Hkey.
  assert (Hkeys :
            NoDup
              (map fst
                 (map (grouped outputs)
                    (filter (fun kv => assignable (fst kv))
                       backendOutputMetadata)))).
  { rewrite grouped_keys. now apply NoDup_keys_filter. }
  rewrite in_property_order_get by exact Hkeys.
  apply In_get_property; [exact Hkeys|].
  apply (in_map (grouped outputs) _ (key, entry)).
  apply filter_In. split; [exact Hin|]. simpl. unfold assignable.
  now destruct (String.eqb_spec key "__proto__").
Qed.

(** Every group of the result is the group of an entry. *)
Lemma groups_In (outputs : list Output)
  (backendOutputMetadata : JSRecord BackendOutputEntryStackMetadata)
  (key : string) (group : BackendOutputEntry.t) :
  get_property key
    (in_property_order
       (map (grouped outputs)
          (filter (fun kv => assignable (fst kv)) backendOutputMetadata)))
  = Some group ->
  exists entry,
    In (key, entry) backendOutputMetadata
    /\ key <> "__proto__"
    /\ group
       = BackendOutputEntry.make (version entry)
           (outputData_of (stackOutputRecord_of outputs) entry).
Proof.
  intros Hget. apply get_property_In in Hget.
  unfold in_property_order in Hget.
  assert (Hfold :
            forall (entries : list (string * BackendOutputEntry.t)) obj,
              In (key, group)
                (fold_left
                   (fun acc kv => define_property (fst kv) (snd kv) acc)
                   entries obj) ->
              In (key, group) entries \/ In (key, group) obj).
  { induction entries as [|[k v] entries IH]; intros obj Hin; simpl in Hin.
    - now right.
    - apply IH in Hin. destruct Hin as [Hin|Hin]; [left; now right|].
      apply define_property_In in Hin. simpl in Hin.
      destruct Hin as [Heq|Hin]; [left; now left | now right]. }
  apply Hfold in Hget. destruct Hget as [Hin|[]].
  apply in_map_iff in Hin. destruct Hin as ([k entry] & Heq & Hin).
  apply filter_In in Hin. destruct Hin as [Hin Hassignable].
  unfold grouped in Heq. simpl in *. injection Heq as -> <-.
  exists entry. split; [exact Hin|]. split; [|reflexivity].
  unfold assignable in Hassignable.
  now destruct (String.eqb_spec key "__proto__").
Qed.

(** A stack in progress: the call fails, whatever the outputs are. *)
Lemma reconstruct_in_progress
  (backendOutputMetadata : JSRecord BackendOutputEntryStackMetadata)
  (stackDescription : DescribeStacksCommandOutput) (stack : Stack)
  (others : list Stack) :
  Stacks stackDescription = Some (stack :: others) ->
  in_progress stack = true ->
  reconstruct backendOutputMetadata stackDescription
  = Throw
      (BackendOutputClientError DEPLOYMENT_IN_PROGRESS
         (in_progress_message
            (nullish
               (match
                  match Tags stack with
                  | Some tags => Array_find is_deployment_type tags
                  | None => None
                  end
                with
                | Some tag => Value tag
                | None => None
                end)
               "sandbox"))).
Proof.
  intros Hstacks Hprogress. unfold reconstruct.
  rewrite (proj1 (first_stack_present _ _ _ StackStatus Hstacks)).
  rewrite (proj1 (first_stack_present _ _ _ Tags Hstacks)).
  simpl. unfold in_progress in Hprogress. rewrite Hprogress.
  reflexivity.
Qed.

Lemma find_none_without (tags : list Tag) :
  (forall tag, In tag tags -> Key tag <> Some "amplify:deployment-type") ->
  Array_find is_deployment_type tags = None.
Proof.
  intros Hnone. unfold Array_find.
  destruct (find is_deployment_type tags) as [tag|] eqn:Hfind;
    [|reflexivity].
  apply find_some in Hfind. destruct Hfind as [Hin Hkey].
  unfold is_deployment_type in Hkey.
  destruct (Key tag) as [key|] eqn:Hk; [|discriminate].
  apply String.eqb_eq in Hkey. subst key. now apply Hnone in Hin.
Qed.

Lemma find_first_with (before after : list Tag) (tag : Tag) :
  (forall t, In t before -> Key t <> Some "amplify:deployment-type") ->
  Key tag = Some "amplify:deployment-type" ->
  Array_find is_deployment_type (before ++ tag :: after) = Some tag.
Proof.
  intros Hbefore Hkey. unfold Array_find.
  induction before as [|t before IH]; simpl.
  - unfold is_deployment_type. now rewrite Hkey.
  - destruct (is_deployment_type t) eqn:Ht.
    + unfold is_deployment_type in Ht.
      destruct (Key t) as [key|] eqn:Hk; [|discriminate].
      apply String.eqb_eq in Ht. subst key.
      exfalso. apply (Hbefore t); [now left | assumption].
    + apply IH. intros t' Hin. apply Hbefore. now right.
Qed.

Lemma JSON_parse_throws (text : string) (error : JSError) :
  JSON.parse text = Throw error -> exists message, error = SyntaxError message.
Proof.
  unfold JSON.parse.
  destruct (JSON.parse_value _ text) as [[value rest]|].
  - destruct (JSON.skip_ws rest); [discriminate|].
    intros [= <-]. eauto.
  - intros [= <-]. eauto.
Qed.

Lemma filter_Return (metadataObject : JSValue)
  (filteredMetadataObject : JSRecord JSValue) :
  filterBackendOutputEntryStackMetadata metadataObject
  = Return filteredMetadataObject ->
  exists entries,
    Object_entries metadataObject = Return entries
    /\ filteredMetadataObject
       = Object_fromEntries
           (filter (fun kv => isBackendOutputEntryStackMetadata (snd kv))
              entries).
Proof.
  unfold filterBackendOutputEntryStackMetadata.
  destruct (Object_entries metadataObject) as [entries|]; simpl;
    [|discriminate].
  intros [= <-]. now exists entries.
Qed.

(* ------------------------------------------------------------------ *)
(** ** The routine once the metadata is fetched *)

Section Fetched.

Variable this : StackMetadataBackendOutputRetrievalStrategy.
Variable stackName : string.
Variable text : string.
Variable metadataObject : JSValue.
Variable filteredMetadataObject : JSRecord JSValue.

Hypothesis name_resolved :
  resolveMainStackName (stackNameResolver this) = Return stackName.
Hypothesis summary_fetched :
  send_GetTemplateSummaryCommand (cfnClient this) stackName
  = Return {| Metadata := Some text |}.
Hypothesis text_parsed : JSON.parse text = Return metadataObject.
Hypothesis entries_filtered :
  filterBackendOutputEntryStackMetadata metadataObject
  = Return filteredMetadataObject.

Lemma fetch_filtered :
  fetchBackendOutput this
  = (backendOutputMetadata <-
       backendOutputStackMetadataSchema_parse filteredMetadataObject;;
     stackDescription <-
       send_DescribeStacksCommand (cfnClient this) stackName;;
     reconstruct backendOutputMetadata stackDescription).
Proof.
  unfold fetchBackendOutput.
  rewrite name_resolved. simpl. rewrite summary_fetched. simpl.
  rewrite text_parsed. simpl. rewrite entries_filtered. reflexivity.
Qed.

Lemma filtered_keys_NoDup : NoDup (Object_keys filteredMetadataObject).
Proof.
  destruct (filter_Return _ _ entries_filtered) as (entries & _ & ->).
  apply Object_fromEntries_NoDup.
Qed.

(** C6. If an entry that the pre-filter keeps fails the strict validation
    of the entry schema, [fetchBackendOutput] fails with the schema
    validation error, which names the entry; no backend output is
    returned, and the stack is not described. *)
Theorem malformed_entry_fails_validation (key : string) (value : JSValue) :
  In (key, value) filteredMetadataObject ->
  backendOutputEntryStackMetadataSchema_parse value = None ->
  exists paths,
    fetchBackendOutput this = Throw (SchemaValidationError paths)
    /\ In key paths
    /\ forall result, fetchBackendOutput this <> Return result.
Proof.
  intros Hin Hparse. rewrite fetch_filtered.
  unfold backendOutputStackMetadataSchema_parse.
  assert (Hrefused : In key (refused filteredMetadataObject)).
  { apply refused_In. now exists value. }
  destruct (refused filteredMetadataObject) as [|path paths];
    [contradiction|].
  simpl. exists (path :: paths). repeat split; [assumption|].
  intros result. discriminate.
Qed.

Section Validated.

Variable backendOutputMetadata : JSRecord BackendOutputEntryStackMetadata.
Variable stackDescription : DescribeStacksCommandOutput.

Hypothesis metadata_validated :
  backendOutputStackMetadataSchema_parse filteredMetadataObject
  = Return backendOutputMetadata.
Hypothesis stack_described :
  send_DescribeStacksCommand (cfnClient this) stackName
  = Return stackDescription.

Lemma fetch_validated :
  fetchBackendOutput this
  = reconstruct backendOutputMetadata stackDescription.
Proof.
  rewrite fetch_filtered, metadata_validated. simpl.
  rewrite stack_described. reflexivity.
Qed.

Lemma validated_keys :
  Object_keys backendOutputMetadata = Object_keys filteredMetadataObject.
Proof.
  destruct (schema_parse_Return _ _ metadata_validated) as [Hrefused ->].
  now apply accepted_keys.
Qed.

Lemma validated_keys_NoDup : NoDup (Object_keys backendOutputMetadata).
Proof. rewrite validated_keys. apply filtered_keys_NoDup. Qed.

Lemma validated_entry (key : string)
  (entry : BackendOutputEntryStackMetadata) :
  In (key, entry) backendOutputMetadata ->
  exists value,
    In (key, value) filteredMetadataObject
    /\ backendOutputEntryStackMetadataSchema_parse value = Some entry.
Proof.
  destruct (schema_parse_Return _ _ metadata_validated) as [_ ->].
  apply accepted_In.
Qed.


Lemma fetch_groups (stack : Stack) (others : list Stack)
  (outputs : list Output) :
  Stacks stackDescription = Some (stack :: others) ->
  in_progress stack = false ->
  Outputs stack = Some outputs ->
  fetchBackendOutput this
  = Return
      (in_property_order
         (map (grouped outputs)
            (filter (fun kv => assignable (fst kv)) backendOutputMetadata))).
Proof.
  intros Hstacks Hprogress Houtputs. rewrite fetch_validated.
  exact (reconstruct_groups _ _ _ _ _ Hstacks Hprogress Houtputs).
Qed.

Lemma filter_assignable (keys : list string) :
  ~ In "__proto__" keys -> filter assignable keys = keys.
Proof.
  induction keys as [|k keys IH]; simpl; intros Hnone; [reflexivity|].
  unfold assignable at 1.
  destruct (String.eqb_spec k "__proto__") as [->|Hne]; simpl.
  - exfalso. apply Hnone. now left.
  - f_equal. apply IH. tauto.
Qed.

(** C2. If the status of the described stack ends with the in-progress
    marker, [fetchBackendOutput] fails with the deployment-in-progress
    error, whether the stack has outputs or not (nothing is asked of
    [Outputs stack]).  The message carries the label: the value of the
    first tag whose key is [amplify:deployment-type], and [sandbox] when
    the stack has no tags, no tag with that key, or no value in it. *)
Theorem in_progress_fails (stack : Stack) (others : list Stack)
  (status : string) :
  Stacks stackDescription = Some (stack :: others) ->
  StackStatus stack = Some status ->
  endsWith status "_IN_PROGRESS" = true ->
  exists label,
    fetchBackendOutput this
    = Throw (BackendOutputClientError DEPLOYMENT_IN_PROGRESS
               (in_progress_message label))
    /\ (Tags stack = None -> label = "sandbox")
    /\ (forall tags,
           Tags stack = Some tags ->
           (forall tag,
               In tag tags -> Key tag <> Some "amplify:deployment-type") ->
           label = "sandbox")
    /\ (forall before tag after,
           Tags stack = Some (before ++ tag :: after) ->
           (forall t,
               In t before -> Key t <> Some "amplify:deployment-type") ->
           Key tag = Some "amplify:deployment-type" ->
           (forall value, Value tag = Some value -> label = value)
           /\ (Value tag = None -> label = "sandbox")).
Proof.
  intros Hstacks Hstatus Hends.
  assert (Hprogress : in_progress stack = true).
  { unfold in_progress. now rewrite Hstatus. }
  rewrite fetch_validated.
  rewrite (reconstruct_in_progress _ _ _ _ Hstacks Hprogress).
  eexists. split; [reflexivity|]. split; [|split].
  - intros ->. reflexivity.
  - intros tags -> Hnone. now rewrite (find_none_without _ Hnone).
  - intros before tag after -> Hbefore Hkey.
    rewrite (find_first_with _ _ _ Hbefore Hkey). split.
    + intros value ->. reflexivity.
    + intros ->. reflexivity.
Qed.

(** C7. If the outputs of the described stack are undefined (the answer
    has no [Stacks], or its first stack has no [Outputs]) and the status is
    not in progress, [fetchBackendOutput] fails with the
    no-outputs-found error. *)
Theorem undefined_outputs_fail :
  (Stacks stackDescription = None
   \/ exists stack others,
        Stacks stackDescription = Some (stack :: others)
        /\ Outputs stack = None
        /\ in_progress stack = false) ->
  fetchBackendOutput this
  = Throw (BackendOutputClientError NO_OUTPUTS_FOUND
             "Stack outputs are undefined").
Proof.
  intros [Hnone|(stack & others & Hstacks & Houtputs & Hprogress)];
    rewrite fetch_validated; unfold reconstruct.
  - unfold first_stack, optional_first_stack. rewrite Hnone. reflexivity.
  - rewrite (proj1 (first_stack_present _ _ _ StackStatus Hstacks)).
    rewrite (proj2 (first_stack_present _ _ _ Outputs Hstacks)).
    simpl. unfold in_progress in Hprogress.
    rewrite Hprogress, Houtputs. reflexivity.
Qed.

(** C10. If the answer has a [Stacks] list that is empty,
    [fetchBackendOutput] returns no backend output and fails with none of
    the typed errors: reading [StackStatus] of the missing first stack
    throws a [TypeError]. *)
Theorem empty_stacks_list_throws :
  Stacks stackDescription = Some [] ->
  fetchBackendOutput this
  = Throw (TypeError "Cannot read properties of undefined")
  /\ (forall result, fetchBackendOutput this <> Return result)
  /\ (forall code message,
         fetchBackendOutput this
         <> Throw (BackendOutputClientError code message))
  /\ (forall paths,
         fetchBackendOutput this <> Throw (SchemaValidationError paths)).
Proof.
  intros Hstacks.
  assert (Hthrows :
            fetchBackendOutput this
            = Throw (TypeError "Cannot read properties of undefined")).
  { rewrite fetch_validated. unfold reconstruct, first_stack.
    rewrite Hstacks. reflexivity. }
  rewrite Hthrows. repeat split; intros; discriminate.
Qed.

(** C8, as amended. When no key of the metadata is [__proto__], every
    validated entry yields a group of the returned backend output.  The
    groups stand under the keys of the filtered metadata in property
    order: the keys that are array indices first, in ascending order, then
    the other keys in the order of the metadata object; when no key is an
    array index this is the order of the metadata object itself.  Each
    group carries the version string of its entry.  An entry none of whose
    names is carried by an output, and none of whose names is the name of a
    member of [Object.prototype], still yields its group, with an empty
    payload, and the call succeeds. *)
Theorem every_entry_yields_group (stack : Stack) (others : list Stack)
  (outputs : list Output) :
  Stacks stackDescription = Some (stack :: others) ->
  in_progress stack = false ->
  Outputs stack = Some outputs ->
  ~ In "__proto__" (Object_keys filteredMetadataObject) ->
  exists result,
    fetchBackendOutput this = Return result
    /\ Object_keys result
       = property_order (Object_keys filteredMetadataObject)
    /\ Permutation (Object_keys result) (Object_keys filteredMetadataObject)
    /\ ((forall key,
            In key (Object_keys filteredMetadataObject) ->
            is_array_index key = false) ->
        Object_keys result = Object_keys filteredMetadataObject
        /\ forall properties,
             metadataObject = JObject properties ->
             NoDup (Object_keys properties) ->
             Object_keys result
             = Object_keys
                 (filter
                    (fun kv => isBackendOutputEntryStackMetadata (snd kv))
                    properties))
    /\ (forall key entry,
           In (key, entry) backendOutputMetadata ->
           exists group,
             get_property key result = Some group
             /\ BackendOutputEntry.version group = version entry
             /\ (exists properties,
                    get_property key filteredMetadataObject
                    = Some (JObject properties)
                    /\ get_property "version" properties
                       = Some (JString (BackendOutputEntry.version group)))
             /\ ((forall name output,
                     In name (stackOutputs entry) ->
                     In output outputs ->
                     OutputKey output <> Some name) ->
                 (forall name,
                     In name (stackOutputs entry) -> own_name name = true) ->
                 BackendOutputEntry.payload group = [])).
Proof.
  intros Hstacks Hprogress Houtputs Hproto.
  eexists. split; [exact (fetch_groups _ _ _ Hstacks Hprogress Houtputs)|].
  assert (Hkeys :
            Object_keys
              (in_property_order
                 (map (grouped outputs)
                    (filter (fun kv => assignable (fst kv))
                       backendOutputMetadata)))
            = property_order (Object_keys filteredMetadataObject)).
  { rewrite groups_keys by apply validated_keys_NoDup.
    rewrite validated_keys. now rewrite filter_assignable. }
  split; [exact Hkeys|]. split; [|split].
  - rewrite Hkeys. apply property_order_Permutation.
  - intros Hordinary. rewrite Hkeys.
    rewrite (property_order_ordinary _ Hordinary).
    split; [reflexivity|].
    intros properties -> Hnd.
    destruct (filter_Return _ _ entries_filtered) as (entries & Hentries & ->).
    injection Hentries as <-.
    rewrite Object_fromEntries_distinct; [reflexivity|].
    now apply NoDup_keys_filter.
  - intros key entry Hin.
    assert (Hkey : key <> "__proto__").
    { intros ->. apply Hproto. rewrite <- validated_keys.
      now apply (in_map fst) in Hin. }
    eexists.
    split; [exact (groups_get outputs _ _ _ validated_keys_NoDup Hin Hkey)|].
    split; [reflexivity|]. split.
    + destruct (validated_entry _ _ Hin) as (value & Hvalue & Hparse).
      apply entry_schema_accepts in Hparse.
      destruct Hparse as (properties & -> & Hversion & _).
      exists properties. split; [|exact Hversion].
      apply In_get_property; [apply filtered_keys_NoDup | exact Hvalue].
    + intros Habsent Hown. simpl.
      rewrite outputData_resolved by (intros name Hname _; now apply Hown).
      rewrite resolved_nil; [reflexivity|].
      intros name Hname. apply rawOutputValue_None.
      intros output Houtput Hkey'. exfalso.
      exact (Habsent name output Hname Houtput Hkey').
Qed.


End Validated.

End Fetched.

(* ------------------------------------------------------------------ *)
(** ** The metadata fetch and its errors *)

(** C4, as amended. Every error the client surfaces while the metadata is
    fetched is classified by its class, message and name, in this order: a
    service exception whose message starts with [Stack with id] and ends
    with [does not exist] becomes the no-stack-found error; otherwise one
    named [ExpiredToken] or [InvalidClientTokenId] becomes the credentials
    error and one named [AccessDenied] the access-denied error, both with
    the message of the exception; any other error is thrown again as it
    is. *)
Theorem metadata_fetch_errors_classified
  (this : StackMetadataBackendOutputRetrievalStrategy)
  (stackName : string) (error : JSError) :
  resolveMainStackName (stackNameResolver this) = Return stackName ->
  send_GetTemplateSummaryCommand (cfnClient this) stackName = Throw error ->
  (forall name message,
      error = CloudFormationServiceException name message ->
      no_stack_message message = true ->
      fetchBackendOutput this
      = Throw (BackendOutputClientError NO_STACK_FOUND
                 ("Stack with id " ++ stackName ++ " does not exist")))
  /\ (forall name message,
         error = CloudFormationServiceException name message ->
         no_stack_message message = false ->
         name = "ExpiredToken" \/ name = "InvalidClientTokenId" ->
         fetchBackendOutput this
         = Throw (BackendOutputClientError CREDENTIALS_ERROR message))
  /\ (forall message,
         error = CloudFormationServiceException "AccessDenied" message ->
         no_stack_message message = false ->
         fetchBackendOutput this
         = Throw (BackendOutputClientError ACCESS_DENIED message))
  /\ ((forall name message,
          error = CloudFormationServiceException name message ->
          no_stack_message message = false
          /\ name <> "ExpiredToken" /\ name <> "InvalidClientTokenId"
          /\ name <> "AccessDenied") ->
      fetchBackendOutput this = Throw error).
Proof.
  intros Hname Hsend.
  assert (Hfetch :
            fetchBackendOutput this
            = (metadataObject <- catch_metadata_error stackName error;;
               filteredMetadataObject <-
                 filterBackendOutputEntryStackMetadata metadataObject;;
               backendOutputMetadata <-
                 backendOutputStackMetadataSchema_parse
                   filteredMetadataObject;;
               stackDescription <-
                 send_DescribeStacksCommand (cfnClient this) stackName;;
               reconstruct backendOutputMetadata stackDescription)).
  { unfold fetchBackendOutput. rewrite Hname. simpl. rewrite Hsend.
    reflexivity. }
  rewrite Hfetch. unfold catch_metadata_error, no_stack_message.
  split; [|split; [|split]].
  - intros name message -> Hmatch. simpl. rewrite Hmatch. reflexivity.
  - intros name message -> Hmatch [-> | ->]; simpl; rewrite Hmatch;
      reflexivity.
  - intros message -> Hmatch. simpl. rewrite Hmatch. reflexivity.
  - intros Hother.
    destruct error as [name message| | | | | |]; try reflexivity.
    destruct (Hother name message eq_refl) as (Hmatch & H1 & H2 & H3).
    simpl. rewrite Hmatch. unfold includes. simpl.
    apply String.eqb_neq in H1, H2, H3. rewrite H1, H2, H3. reflexivity.
Qed.

(** C5, as amended. If the fetched metadata is absent (not a string),
    [fetchBackendOutput] fails with the metadata retrieval error.  If it is
    a string that [JSON.parse] refuses, [fetchBackendOutput] fails with
    the syntax error of [JSON.parse], thrown again as it is. *)
Theorem absent_metadata_fails
  (this : StackMetadataBackendOutputRetrievalStrategy)
  (stackName : string) (templateSummary : GetTemplateSummaryCommandOutput) :
  resolveMainStackName (stackNameResolver this) = Return stackName ->
  send_GetTemplateSummaryCommand (cfnClient this) stackName
  = Return templateSummary ->
  (Metadata templateSummary = None ->
   fetchBackendOutput this
   = Throw (BackendOutputClientError METADATA_RETRIEVAL_ERROR
              "Stack template metadata is not a string"))
  /\ (forall text error,
         Metadata templateSummary = Some text ->
         JSON.parse text = Throw error ->
         fetchBackendOutput this = Throw error
         /\ exists message, error = SyntaxError message).
Proof.
  intros Hname Hsend. split.
  - intros Hnone. unfold fetchBackendOutput.
    rewrite Hname. simpl. rewrite Hsend. simpl. rewrite Hnone. reflexivity.
  - intros text error Hsome Hparse.
    destruct (JSON_parse_throws _ _ Hparse) as [message ->].
    split; [|now exists message].
    unfold fetchBackendOutput.
    rewrite Hname. simpl. rewrite Hsend. simpl. rewrite Hsome, Hparse.
    reflexivity.
Qed.

(** C3, as amended. The pre-filter keeps exactly the entries that are
    objects with both a [version] and a [stackOutputs] property; it removes
    every other entry, also one that has only one of the two.  A removed
    entry never reaches the schema: a validation error names kept entries
    only, and the metadata without a removed entry filters to the same
    object. *)
Theorem prefilter_keeps_entries_with_both_fields
  (properties : JSRecord JSValue) :
  NoDup (Object_keys properties) ->
  exists filteredMetadataObject,
    filterBackendOutputEntryStackMetadata (JObject properties)
    = Return filteredMetadataObject
    /\ filteredMetadataObject
       = filter (fun kv => isBackendOutputEntryStackMetadata (snd kv))
           properties
    /\ (forall key value,
           In (key, value) filteredMetadataObject <->
           In (key, value) properties
           /\ exists fields,
                value = JObject fields
                /\ has_property "version" fields = true
                /\ has_property "stackOutputs" fields = true)
    /\ (forall key,
           In key (refused filteredMetadataObject) ->
           exists value,
             In (key, value) properties
             /\ isBackendOutputEntryStackMetadata value = true)
    /\ (forall before key value after,
           properties = before ++ (key, value) :: after ->
           isBackendOutputEntryStackMetadata value = false ->
           filterBackendOutputEntryStackMetadata
             (JObject (before ++ after))
           = Return filteredMetadataObject).
Proof.
  intros Hnd.
  assert (Hfilter :
            forall entries : JSRecord JSValue,
              NoDup (Object_keys entries) ->
              filterBackendOutputEntryStackMetadata (JObject entries)
              = Return
                  (filter
                     (fun kv => isBackendOutputEntryStackMetadata (snd kv))
                     entries)).
  { intros entries Hentries. unfold filterBackendOutputEntryStackMetadata.
    simpl. rewrite Object_fromEntries_distinct; [reflexivity|].
    now apply NoDup_keys_filter. }
  eexists. split; [exact (Hfilter properties Hnd)|].
  split; [reflexivity|]. split; [|split].
  - intros key value. rewrite filter_In. simpl.
    rewrite isBackendOutputEntryStackMetadata_spec. tauto.
  - intros key Hkey. apply refused_In in Hkey.
    destruct Hkey as (value & Hin & _).
    apply filter_In in Hin. exists value. exact Hin.
  - intros before key value after -> Hremoved.
    rewrite Hfilter.
    + rewrite !filter_app. simpl. now rewrite Hremoved.
    + unfold Object_keys in *. rewrite map_app in *. simpl in Hnd.
      now apply NoDup_remove_1 in Hnd.
Qed.

(* ------------------------------------------------------------------ *)
(** ** The claims on the example stack *)

(** The routine on the example stack: the entry [api] keeps [ApiUrl] and
    loses [ApiId], whose value is empty; the unrelated key is ignored. *)
Example example_backend_output :
  fetchBackendOutput
    (example_strategy example_summary
       (Return
          {| Stacks :=
               Some [example_stack "UPDATE_COMPLETE"
                       (Some example_outputs)] |}))
  = Return
      [("api",
        BackendOutputEntry.make "1" [("ApiUrl", StringValue "https://x")])].
Proof. reflexivity. Qed.

Example example_text_parsed :
  JSON.parse example_text = Return (JObject example_properties).
Proof. reflexivity. Qed.


Lemma in_progress_fails_witness :
  exists label,
    fetchBackendOutput
      (example_strategy example_summary
         (Return
            {| Stacks :=
                 Some [example_stack "UPDATE_IN_PROGRESS"
                         (Some example_outputs)] |}))
    = Throw (BackendOutputClientError DEPLOYMENT_IN_PROGRESS
               (in_progress_message label))
    /\ label = "branch".
Proof.
  destruct
    (in_progress_fails
       (example_strategy example_summary
          (Return
             {| Stacks :=
                  Some [example_stack "UPDATE_IN_PROGRESS"
                          (Some example_outputs)] |}))
       "amplify-app-main" example_text (JObject example_properties)
       [("api", example_api)]
       eq_refl eq_refl eq_refl eq_refl
       [("api", example_entry)]
       {| Stacks :=
            Some [example_stack "UPDATE_IN_PROGRESS"
                    (Some example_outputs)] |}
       eq_refl eq_refl
       (example_stack "UPDATE_IN_PROGRESS" (Some example_outputs)) []
       "UPDATE_IN_PROGRESS"
       eq_refl eq_refl eq_refl)
    as (label & Hfetch & _ & _ & Htag).
  exists label. split; [exact Hfetch|].
  apply (Htag []
           {| Key := Some "amplify:deployment-type"; Value := Some "branch" |}
           [] eq_refl).
  - intros t [].
  - reflexivity.
  - reflexivity.
Defined.

Lemma undefined_outputs_fail_witness :
  fetchBackendOutput
    (example_strategy example_summary
       (Return {| Stacks := Some [example_stack "UPDATE_COMPLETE" None] |}))
  = Throw (BackendOutputClientError NO_OUTPUTS_FOUND
             "Stack outputs are undefined").
Proof.
  apply
    (undefined_outputs_fail
       (example_strategy example_summary
          (Return
             {| Stacks := Some [example_stack "UPDATE_COMPLETE" None] |}))
       "amplify-app-main" example_text (JObject example_properties)
       [("api", example_api)]
       eq_refl eq_refl eq_refl eq_refl
       [("api", example_entry)]
       {| Stacks := Some [example_stack "UPDATE_COMPLETE" None] |}
       eq_refl eq_refl).
  right. exists (example_stack "UPDATE_COMPLETE" None), [].
  repeat split; reflexivity.
Defined.

Lemma empty_stacks_list_throws_witness :
  fetchBackendOutput
    (example_strategy example_summary (Return {| Stacks := Some [] |}))
  = Throw (TypeError "Cannot read properties of undefined").
Proof.
  apply
    (empty_stacks_list_throws
       (example_strategy example_summary (Return {| Stacks := Some [] |}))
       "amplify-app-main" example_text (JObject example_properties)
       [("api", example_api)]
       eq_refl eq_refl eq_refl eq_refl
       [("api", example_entry)]
       {| Stacks := Some [] |}
       eq_refl eq_refl eq_refl).
Defined.

(** None of the declared names is carried by an output: the group is
    there, with an empty payload. *)
Lemma every_entry_yields_group_witness :
  exists result,
    fetchBackendOutput
      (example_strategy example_summary
         (Return
            {| Stacks :=
                 Some [example_stack "UPDATE_COMPLETE"
                         (Some [ {| OutputKey := Some "Other";
                                    OutputValue := Some "y" |} ])] |}))
    = Return result
    /\ Object_keys result = ["api"]
    /\ exists group,
         get_property "api" result = Some group
         /\ BackendOutputEntry.version group = "1"
         /\ BackendOutputEntry.payload group = [].
Proof.
  assert (Hproto : ~ In "__proto__" (Object_keys [("api", example_api)])).
  { intros [H|[]]. discriminate H. }
  destruct
    (every_entry_yields_group
       (example_strategy example_summary
          (Return
             {| Stacks :=
                  Some [example_stack "UPDATE_COMPLETE"
                          (Some [ {| OutputKey := Some "Other";
                                     OutputValue := Some "y" |} ])] |}))
       "amplify-app-main" example_text (JObject example_properties)
       [("api", example_api)]
       eq_refl eq_refl eq_refl eq_refl
       [("api", example_entry)]
       {| Stacks :=
            Some [example_stack "UPDATE_COMPLETE"
                    (Some [ {| OutputKey := Some "Other";
                               OutputValue := Some "y" |} ])] |}
       eq_refl eq_refl
       (example_stack "UPDATE_COMPLETE"
          (Some [ {| OutputKey := Some "Other"; OutputValue := Some "y" |} ]))
       []
       [ {| OutputKey := Some "Other"; OutputValue := Some "y" |} ]
       eq_refl eq_refl eq_refl Hproto)
    as (result & Hfetch & Hkeys & _ & _ & Hgroups).
  exists result. split; [exact Hfetch|]. split; [exact Hkeys|].
  destruct (Hgroups "api" example_entry (or_introl eq_refl))
    as (group & Hgroup & Hversion & _ & Hempty).
  exists group. split; [exact Hgroup|]. split; [exact Hversion|].
  apply Hempty.
  - intros name output Hname [<-|[]].
    destruct Hname as [<-|[<-|[]]]; discriminate.
  - intros name [<-|[<-|[]]]; reflexivity.
Defined.

Lemma malformed_entry_fails_validation_witness :
  exists paths,
    fetchBackendOutput
      (example_strategy (Return {| Metadata := Some malformed_text |})
         (Return
            {| Stacks :=
                 Some [example_stack "UPDATE_COMPLETE"
                         (Some example_outputs)] |}))
    = Throw (SchemaValidationError paths)
    /\ In "api" paths.
Proof.
  destruct
    (malformed_entry_fails_validation
       (example_strategy (Return {| Metadata := Some malformed_text |})
          (Return
             {| Stacks :=
                  Some [example_stack "UPDATE_COMPLETE"
                          (Some example_outputs)] |}))
       "amplify-app-main" malformed_text
       (JObject
          [("api",
            JObject [("version", JString "1"); ("stackOutputs", JArray [])])])
       [("api",
         JObject [("version", JString "1"); ("stackOutputs", JArray [])])]
       eq_refl eq_refl eq_refl eq_refl
       "api"
       (JObject [("version", JString "1"); ("stackOutputs", JArray [])])
       (or_introl eq_refl) eq_refl)
    as (paths & Hfetch & Hin & _).
  exists paths. split; [exact Hfetch | exact Hin].
Defined.

Lemma metadata_fetch_errors_classified_witness :
  fetchBackendOutput
    (example_strategy
       (Throw
          (CloudFormationServiceException "ValidationError"
             "Stack with id amplify-app-main does not exist"))
       (Return {| Stacks := None |}))
  = Throw (BackendOutputClientError NO_STACK_FOUND
             "Stack with id amplify-app-main does not exist").
Proof.
  apply
    (proj1
       (metadata_fetch_errors_classified
          (example_strategy
             (Throw
                (CloudFormationServiceException "ValidationError"
                   "Stack with id amplify-app-main does not exist"))
             (Return {| Stacks := None |}))
          "amplify-app-main"
          (CloudFormationServiceException "ValidationError"
             "Stack with id amplify-app-main does not exist")
          eq_refl eq_refl)
       "ValidationError" "Stack with id amplify-app-main does not exist"
       eq_refl eq_refl).
Defined.

Lemma absent_metadata_fails_witness :
  fetchBackendOutput
    (example_strategy (Return {| Metadata := None |})
       (Return {| Stacks := None |}))
  = Throw (BackendOutputClientError METADATA_RETRIEVAL_ERROR
             "Stack template metadata is not a string").
Proof.
  apply
    (proj1
       (absent_metadata_fails
          (example_strategy (Return {| Metadata := None |})
             (Return {| Stacks := None |}))
          "amplify-app-main" {| Metadata := None |} eq_refl eq_refl)
       eq_refl).
Defined.

Lemma prefilter_keeps_entries_with_both_fields_witness :
  exists filteredMetadataObject,
    filterBackendOutputEntryStackMetadata (JObject example_properties)
    = Return filteredMetadataObject
    /\ filteredMetadataObject = [("api", example_api)].
Proof.
  destruct
    (prefilter_keeps_entries_with_both_fields example_properties
       (proj1 (unique_NoDup (Object_keys example_properties)) eq_refl))
    as (filteredMetadataObject & Hfilter & Hkept & _).
  exists filteredMetadataObject. split; [exact Hfilter | exact Hkept].
Defined.

(* ------------------------------------------------------------------ *)
(** ** Where the claims as first stated fail *)

(** C3 as first stated keeps an entry that has one of the two fields and
    passes it to the schema.  An entry with a [version] only is removed:
    the call succeeds with no group, although the schema refuses the
    entry. *)
Lemma entry_with_one_field_is_removed :
  JSON.parse version_only_text
  = Return (JObject [("api", JObject [("version", JString "1")])])
  /\ has_property "version" [("version", JString "1")] = true
  /\ filterBackendOutputEntryStackMetadata
       (JObject [("api", JObject [("version", JString "1")])])
     = Return []
  /\ backendOutputEntryStackMetadataSchema_parse
       (JObject [("version", JString "1")])
     = None
  /\ fetchBackendOutput
       (example_strategy (Return {| Metadata := Some version_only_text |})
          (Return
             {| Stacks :=
                  Some [example_stack "UPDATE_COMPLETE"
                          (Some example_outputs)] |}))
     = Return [].
Proof. repeat split. Qed.


(** The metadata text has the key [b] and then the key [1]: the parsed
    object, the filtered object and the backend output list [1] first. *)
Lemma metadata_order_is_not_kept :
  exists properties result,
    JSON.parse index_key_text = Return (JObject properties)
    /\ Object_keys properties = ["1"; "b"]
    /\ fetchBackendOutput
         (example_strategy (Return {| Metadata := Some index_key_text |})
            (Return
               {| Stacks :=
                    Some [example_stack "UPDATE_COMPLETE"
                            (Some example_outputs)] |}))
       = Return result
    /\ Object_keys result = ["1"; "b"]
    /\ Object_keys result <> ["b"; "1"].
Proof.
  eexists. eexists. split; [reflexivity|]. split; [reflexivity|].
  split; [reflexivity|]. split; [reflexivity|]. discriminate.
Qed.

(** C9. The routine on a stack that is not in progress and whose outputs
    list is defined and empty, for a validated entry that declares the
    name [constructor]: the routine does not fail with the
    no-outputs-found error and returns the group, but the payload of the
    group is not empty.  Reading [constructor] in the empty record of
    outputs finds the member of [Object.prototype] of that name, which is
    neither [undefined] nor the empty string, and the payload takes it
    up. *)
Theorem empty_outputs_payload_has_inherited_member :
  fetchBackendOutput
    (example_strategy (Return {| Metadata := Some inherited_name_text |})
       (Return
          {| Stacks := Some [example_stack "UPDATE_COMPLETE" (Some [])] |}))
  = Return
      [("api",
        BackendOutputEntry.make "1"
          [("constructor", PrototypeMember "constructor")])].
Proof. reflexivity. Qed.

Lemma describe_stacks_error_is_not_classified :
  fetchBackendOutput
    (example_strategy example_summary
       (Throw (CloudFormationServiceException "AccessDenied" "not authorized")))
  = Throw (CloudFormationServiceException "AccessDenied" "not authorized")
  /\ (forall message,
         fetchBackendOutput
           (example_strategy example_summary
              (Throw
                 (CloudFormationServiceException "AccessDenied"
                    "not authorized")))
         <> Throw (BackendOutputClientError ACCESS_DENIED message)).
Proof. split; [reflexivity | intros message; discriminate]. Qed.

(** C5 as first stated turns a text that cannot be parsed into the
    metadata retrieval error.  The text of one opening brace is refused by
    [JSON.parse], and the routine fails with that syntax error. *)
Lemma unparseable_metadata_is_a_syntax_error :
  JSON.parse "{" = Throw (SyntaxError "Unexpected token or end of JSON input")
  /\ fetchBackendOutput
       (example_strategy (Return {| Metadata := Some "{" |})
          (Return
             {| Stacks :=
                  Some [example_stack "UPDATE_COMPLETE"
                          (Some example_outputs)] |}))
     = Throw (SyntaxError "Unexpected token or end of JSON input")
  /\ (forall message,
         fetchBackendOutput
           (example_strategy (Return {| Metadata := Some "{" |})
              (Return
                 {| Stacks :=
                      Some [example_stack "UPDATE_COMPLETE"
                              (Some example_outputs)] |}))
         <> Throw (BackendOutputClientError METADATA_RETRIEVAL_ERROR message)).
Proof. repeat split. intros message. discriminate. Qed.

(* ------------------------------------------------------------------ *)
(** ** How the routine ends *)

(** The [catch] block throws: the error it caught, or one of the three
    errors it makes of a service exception. *)
Lemma catch_metadata_error_cases (stackName : string) (error : JSError) :
  catch_metadata_error stackName error = Throw error
  \/ exists name message,
       error = CloudFormationServiceException name message
       /\ ((no_stack_message message = true
            /\ catch_metadata_error stackName error
               = Throw (BackendOutputClientError NO_STACK_FOUND
                          ("Stack with id " ++ stackName
                           ++ " does not exist")))
           \/ (no_stack_message message = false
               /\ (name = "ExpiredToken" \/ name = "InvalidClientTokenId")
               /\ catch_metadata_error stackName error
                  = Throw (BackendOutputClientError CREDENTIALS_ERROR
                             message))
           \/ (no_stack_message message = false
               /\ name = "AccessDenied"
               /\ catch_metadata_error stackName error
                  = Throw (BackendOutputClientError ACCESS_DENIED message))).
Proof.
  destruct error as [name message| | | | | |]; try (left; reflexivity).
  unfold catch_metadata_error. simpl.
  fold (no_stack_message message).
  destruct (no_stack_message message) eqn:Hmatch.
  { right. exists name, message. split; [reflexivity|]. left. tauto. }
  unfold includes. simpl.
  destruct (String.eqb_spec name "ExpiredToken") as [->|H1].
  { right. eexists _, message. split; [reflexivity|]. right. left. tauto. }
  destruct (String.eqb_spec name "InvalidClientTokenId") as [->|H2].
  { right. eexists _, message. split; [reflexivity|]. right. left. tauto. }
  simpl.
  destruct (String.eqb_spec name "AccessDenied") as [->|H3].
  { right. eexists _, message. split; [reflexivity|]. right. right. tauto. }
  left. reflexivity.
Qed.

Lemma catch_metadata_error_throws (stackName : string) (error : JSError) :
  exists thrown, catch_metadata_error stackName error = Throw thrown.
Proof.
  destruct (catch_metadata_error_cases stackName error)
    as [H|(name & message & _ & [[_ H]|[(_ & _ & H)|(_ & _ & H)]])];
    rewrite H; eauto.
Qed.

(** The filter throws for [null] only. *)
Lemma filter_Throw (metadataObject : JSValue) (error : JSError) :
  filterBackendOutputEntryStackMetadata metadataObject = Throw error ->
  metadataObject = JNull
  /\ error = TypeError "Cannot convert undefined or null to object".
Proof.
  unfold filterBackendOutputEntryStackMetadata.
  destruct metadataObject; simpl; try discriminate.
  intros [= <-]. tauto.
Qed.

Lemma schema_parse_Throw (metadata : JSRecord JSValue) (error : JSError) :
  backendOutputStackMetadataSchema_parse metadata = Throw error ->
  exists paths, error = SchemaValidationError paths.
Proof.
  unfold backendOutputStackMetadataSchema_parse.
  destruct (refused metadata); [discriminate|].
  intros [= <-]. eauto.
Qed.

(** The second half returns for a first stack that is not in progress and
    has outputs, and for no other description. *)
Lemma reconstruct_Return
  (backendOutputMetadata : JSRecord BackendOutputEntryStackMetadata)
  (stackDescription : DescribeStacksCommandOutput) (result : BackendOutput) :
  reconstruct backendOutputMetadata stackDescription = Return result ->
  exists stack others outputs,
    Stacks stackDescription = Some (stack :: others)
    /\ in_progress stack = false
    /\ Outputs stack = Some outputs.
Proof.
  unfold reconstruct, first_stack, optional_first_stack, in_progress.
  destruct (Stacks stackDescription) as [[|stack others]|]; simpl;
    try discriminate.
  destruct (match StackStatus stack with
            | Some status => endsWith status "_IN_PROGRESS"
            | None => false
            end) eqn:Hprogress; [discriminate|].
  destruct (Outputs stack) as [outputs|] eqn:Houtputs; [|discriminate].
  intros _. exists stack, others, outputs. tauto.
Qed.

Lemma reconstruct_Throw
  (backendOutputMetadata : JSRecord BackendOutputEntryStackMetadata)
  (stackDescription : DescribeStacksCommandOutput) (error : JSError) :
  reconstruct backendOutputMetadata stackDescription = Throw error ->
  (exists message, error = TypeError message)
  \/ (exists label,
         error = BackendOutputClientError DEPLOYMENT_IN_PROGRESS
                   (in_progress_message label))
  \/ error = BackendOutputClientError NO_OUTPUTS_FOUND
               "Stack outputs are undefined".
Proof.
  unfold reconstruct, first_stack, optional_first_stack.
  destruct (Stacks stackDescription) as [[|stack others]|]; simpl.
  - intros [= <-]. left. eauto.
  - destruct (match StackStatus stack with
              | Some status => endsWith status "_IN_PROGRESS"
              | None => false
              end).
    + intros [= <-]. right. left. eexists. reflexivity.
    + destruct (Outputs stack); [discriminate|].
      intros [= <-]. tauto.
  - intros [= <-]. tauto.
Qed.

(** What the routine does after the stack name, in terms of the answer to
    the template summary command. *)
Lemma fetch_after_summary
  (this : StackMetadataBackendOutputRetrievalStrategy) (stackName : string) :
  resolveMainStackName (stackNameResolver this) = Return stackName ->
  fetchBackendOutput this
  = (metadataObject <-
       try_catch
         (templateSummary <-
            send_GetTemplateSummaryCommand (cfnClient this) stackName;;
          match Metadata templateSummary with
          | None =>
              Throw (BackendOutputClientError METADATA_RETRIEVAL_ERROR
                       "Stack template metadata is not a string")
          | Some text => JSON.parse text
          end)
         (catch_metadata_error stackName);;
     filteredMetadataObject <-
       filterBackendOutputEntryStackMetadata metadataObject;;
     backendOutputMetadata <-
       backendOutputStackMetadataSchema_parse filteredMetadataObject;;
     stackDescription <-
       send_DescribeStacksCommand (cfnClient this) stackName;;
     reconstruct backendOutputMetadata stackDescription).
Proof.
  intros Hname. unfold fetchBackendOutput. rewrite Hname. reflexivity.
Qed.

(** X1. The routine returns all or nothing: when it returns a backend
    output, the stack name resolved, the metadata was a text that parsed,
    every entry the filter kept passed the schema, the first described
    stack was not in progress and had outputs, and the result is what the
    second half of the routine makes of exactly these entries and these
    outputs: every group of the result is the group of a validated entry,
    with its version and the payload reduced from its names, and every
    validated entry whose key is not [__proto__] has its group. *)
Theorem fetch_returns_only_joined
  (this : StackMetadataBackendOutputRetrievalStrategy)
  (result : BackendOutput) :
  fetchBackendOutput this = Return result ->
  exists stackName text metadataObject filteredMetadataObject
         backendOutputMetadata stackDescription stack others outputs,
    resolveMainStackName (stackNameResolver this) = Return stackName
    /\ send_GetTemplateSummaryCommand (cfnClient this) stackName
       = Return {| Metadata := Some text |}
    /\ JSON.parse text = Return metadataObject
    /\ filterBackendOutputEntryStackMetadata metadataObject
       = Return filteredMetadataObject
    /\ backendOutputStackMetadataSchema_parse filteredMetadataObject
       = Return backendOutputMetadata
    /\ send_DescribeStacksCommand (cfnClient this) stackName
       = Return stackDescription
    /\ Stacks stackDescription = Some (stack :: others)
    /\ in_progress stack = false
    /\ Outputs stack = Some outputs
    /\ reconstruct backendOutputMetadata stackDescription = Return result
    /\ (forall key group,
           get_property key result = Some group ->
           exists entry,
             In (key, entry) backendOutputMetadata
             /\ BackendOutputEntry.version group = version entry
             /\ BackendOutputEntry.payload group
                = outputData_of (stackOutputRecord_of outputs) entry)
    /\ (forall key entry,
           In (key, entry) backendOutputMetadata ->
           key <> "__proto__" ->
           get_property key result
           = Some (BackendOutputEntry.make (version entry)
                     (outputData_of (stackOutputRecord_of outputs) entry)))
    /\ Object_keys result
       = property_order (filter assignable (Object_keys backendOutputMetadata)).
Proof.
  intros Hfetch. pose proof Hfetch as Hrun.
  unfold fetchBackendOutput in Hrun.
  destruct (resolveMainStackName (stackNameResolver this))
    as [stackName|] eqn:Hname; [|discriminate].
  simpl in Hrun.
  destruct (send_GetTemplateSummaryCommand (cfnClient this) stackName)
    as [[[text|]]|thrown] eqn:Hsummary; simpl in Hrun;
    try (destruct (catch_metadata_error_throws stackName thrown) as [e He];
         rewrite He in Hrun; discriminate);
    try discriminate.
  destruct (JSON.parse text) as [metadataObject|thrown] eqn:Hparse;
    simpl in Hrun.
  2:{ destruct (catch_metadata_error_throws stackName thrown) as [e He].
      rewrite He in Hrun. discriminate. }
  destruct (filterBackendOutputEntryStackMetadata metadataObject)
    as [filteredMetadataObject|] eqn:Hfilter; [|discriminate].
  simpl in Hrun.
  destruct (backendOutputStackMetadataSchema_parse filteredMetadataObject)
    as [backendOutputMetadata|] eqn:Hschema; [|discriminate].
  simpl in Hrun.
  destruct (send_DescribeStacksCommand (cfnClient this) stackName)
    as [stackDescription|] eqn:Hdescribe; [|discriminate].
  simpl in Hrun.
  destruct (reconstruct_Return _ _ _ Hrun)
    as (stack & others & outputs & Hstacks & Hprogress & Houtputs).
  exists stackName, text, metadataObject, filteredMetadataObject,
    backendOutputMetadata, stackDescription, stack, others, outputs.
  repeat (split; [assumption || reflexivity|]).
  pose proof (reconstruct_groups backendOutputMetadata _ _ _ _
                Hstacks Hprogress Houtputs) as Hgroups.
  rewrite Hrun in Hgroups. injection Hgroups as ->.
  pose proof (validated_keys_NoDup _ _ Hfilter _ Hschema) as Hnd.
  split; [|split].
  - intros key group Hget.
    destruct (groups_In _ _ _ _ Hget) as (entry & Hin & _ & ->).
    exists entry. repeat split. exact Hin.
  - intros key entry Hin Hkey. now apply groups_get.
  - now apply groups_keys.
Qed.

(** When the name resolves and both commands are answered, the routine
    fails with an error of its own. *)
Lemma answered_fetch_throws_own_error
  (this : StackMetadataBackendOutputRetrievalStrategy) (stackName : string)
  (templateSummary : GetTemplateSummaryCommandOutput)
  (stackDescription : DescribeStacksCommandOutput) (error : JSError) :
  resolveMainStackName (stackNameResolver this) = Return stackName ->
  send_GetTemplateSummaryCommand (cfnClient this) stackName
  = Return templateSummary ->
  send_DescribeStacksCommand (cfnClient this) stackName
  = Return stackDescription ->
  fetchBackendOutput this = Throw error ->
  own_error error.
Proof.
  intros Hname Hsummary Hdescribe Hfetch.
  rewrite (fetch_after_summary this stackName Hname) in Hfetch.
  rewrite Hsummary, Hdescribe in Hfetch. simpl in Hfetch.
  unfold own_error.
  destruct (Metadata templateSummary) as [text|].
  - destruct (JSON.parse text) as [metadataObject|thrown] eqn:Hparse;
      simpl in Hfetch.
    + destruct (filterBackendOutputEntryStackMetadata metadataObject)
        as [filteredMetadataObject|thrown] eqn:Hfilter; simpl in Hfetch.
      * destruct (backendOutputStackMetadataSchema_parse
                    filteredMetadataObject)
          as [backendOutputMetadata|thrown] eqn:Hschema; simpl in Hfetch.
        -- apply reconstruct_Throw in Hfetch. tauto.
        -- injection Hfetch as <-.
           apply schema_parse_Throw in Hschema. tauto.
      * injection Hfetch as <-.
        apply filter_Throw in Hfilter. destruct Hfilter as [_ ->].
        right. right. left. eauto.
    + destruct (JSON_parse_throws _ _ Hparse) as [message ->].
      simpl in Hfetch. injection Hfetch as <-. right. left. eauto.
  - simpl in Hfetch. injection Hfetch as <-. now left.
Qed.


(** X2. When the stack name resolves and the client answers both
    commands, a failure of the routine is one of its own errors: the
    metadata retrieval error, a syntax error, a type error, a schema
    validation error, the deployment-in-progress error or the
    no-outputs-found error; it is never a no-stack-found, credentials or
    access-denied error, and never a service exception. *)
Theorem fetch_fails_with_own_errors
  (this : StackMetadataBackendOutputRetrievalStrategy) (stackName : string)
  (templateSummary : GetTemplateSummaryCommandOutput)
  (stackDescription : DescribeStacksCommandOutput) (error : JSError) :
  resolveMainStackName (stackNameResolver this) = Return stackName ->
  send_GetTemplateSummaryCommand (cfnClient this) stackName
  = Return templateSummary ->
  send_DescribeStacksCommand (cfnClient this) stackName
  = Return stackDescription ->
  fetchBackendOutput this = Throw error ->
  own_error error
  /\ (forall code message,
         error = BackendOutputClientError code message ->
         code = METADATA_RETRIEVAL_ERROR
         \/ code = DEPLOYMENT_IN_PROGRESS
         \/ code = NO_OUTPUTS_FOUND)
  /\ (forall name message,
         error <> CloudFormationServiceException name message).
Proof.
  intros Hname Hsummary Hdescribe Hfetch.
  pose proof (answered_fetch_throws_own_error this stackName templateSummary
                stackDescription error Hname Hsummary Hdescribe Hfetch)
    as Hown.
  split; [exact Hown|].
  unfold own_error in Hown.
  destruct Hown
    as [-> | [[m ->] | [[m ->] | [[m ->] | [[m ->] | ->]]]]];
    split; intros; try discriminate;
    match goal with
    | H : BackendOutputClientError _ _ = BackendOutputClientError _ _ |- _ =>
        injection H as <- _; tauto
    end.
Qed.

(** X3. The classification is sound: when the stack is described, the
    routine fails with a no-stack-found, credentials or access-denied error
    only if the template summary command failed, either with that very
    error or with a service exception that matches the rule of the kind
    (the message pattern, or the name once the pattern does not match),
    and the message is the one the rule builds. *)
Theorem provider_kinds_come_from_template_summary
  (this : StackMetadataBackendOutputRetrievalStrategy) (stackName : string)
  (stackDescription : DescribeStacksCommandOutput)
  (code : BackendOutputClientErrorType) (message : string) :
  resolveMainStackName (stackNameResolver this) = Return stackName ->
  send_DescribeStacksCommand (cfnClient this) stackName
  = Return stackDescription ->
  code = NO_STACK_FOUND \/ code = CREDENTIALS_ERROR \/ code = ACCESS_DENIED ->
  fetchBackendOutput this = Throw (BackendOutputClientError code message) ->
  exists thrown,
    send_GetTemplateSummaryCommand (cfnClient this) stackName = Throw thrown
    /\ (thrown = BackendOutputClientError code message
        \/ exists name text,
             thrown = CloudFormationServiceException name text
             /\ (code = NO_STACK_FOUND ->
                 no_stack_message text = true
                 /\ message
                    = ("Stack with id " ++ stackName ++ " does not exist")
                        %string)
             /\ (code = CREDENTIALS_ERROR ->
                 no_stack_message text = false
                 /\ (name = "ExpiredToken" \/ name = "InvalidClientTokenId")
                 /\ message = text)
             /\ (code = ACCESS_DENIED ->
                 no_stack_message text = false
                 /\ name = "AccessDenied"
                 /\ message = text)).
Proof.
  intros Hname Hdescribe Hcode Hfetch.
  destruct (send_GetTemplateSummaryCommand (cfnClient this) stackName)
    as [templateSummary|thrown] eqn:Hsummary.
  - exfalso.
    pose proof (answered_fetch_throws_own_error this stackName
                  templateSummary stackDescription _
                  Hname Hsummary Hdescribe Hfetch) as Hown.
    unfold own_error in Hown.
    destruct Hown as [H | [[m H] | [[m H] | [[m H] | [[m H] | H]]]]];
      try discriminate H; injection H as Hc _; subst code;
      destruct Hcode as [Hc | [Hc | Hc]]; discriminate Hc.
  - exists thrown. split; [reflexivity|].
    rewrite (fetch_after_summary this stackName Hname) in Hfetch.
    rewrite Hsummary in Hfetch. simpl in Hfetch.
    destruct (catch_metadata_error_cases stackName thrown)
      as [H|(name & text & -> & [[Hm H]|[(Hm & Hn & H)|(Hm & Hn & H)]])];
      rewrite H in Hfetch; simpl in Hfetch.
    + left. now injection Hfetch.
    + right. exists name, text. injection Hfetch as <- <-.
      split; [reflexivity|]. repeat split; try discriminate; assumption.
    + right. exists name, text. injection Hfetch as <- <-.
      split; [reflexivity|]. repeat split; try discriminate; assumption.
    + right. exists name, text. injection Hfetch as <- <-.
      split; [reflexivity|]. repeat split; try discriminate; assumption.
Qed.

(** X4. Once the metadata is validated, any error of the command that
    describes the stack leaves the routine as it is, whatever its class,
    name or message. *)
Theorem describe_stacks_error_is_thrown_unchanged
  (this : StackMetadataBackendOutputRetrievalStrategy)
  (stackName text : string) (metadataObject : JSValue)
  (filteredMetadataObject : JSRecord JSValue)
  (backendOutputMetadata : JSRecord BackendOutputEntryStackMetadata)
  (error : JSError) :
  resolveMainStackName (stackNameResolver this) = Return stackName ->
  send_GetTemplateSummaryCommand (cfnClient this) stackName
  = Return {| Metadata := Some text |} ->
  JSON.parse text = Return metadataObject ->
  filterBackendOutputEntryStackMetadata metadataObject
  = Return filteredMetadataObject ->
  backendOutputStackMetadataSchema_parse filteredMetadataObject
  = Return backendOutputMetadata ->
  send_DescribeStacksCommand (cfnClient this) stackName = Throw error ->
  fetchBackendOutput this = Throw error.
Proof.
  intros Hname Hsummary Hparse Hfilter Hschema Hdescribe.
  rewrite (fetch_filtered this stackName text metadataObject
             filteredMetadataObject Hname Hsummary Hparse Hfilter).
  rewrite Hschema. simpl. rewrite Hdescribe. reflexivity.
Qed.

(** X5. A metadata text that parses to [null] makes the routine fail
    with the type error of [Object.entries], not with a typed error. *)
Theorem null_metadata_throws_type_error
  (this : StackMetadataBackendOutputRetrievalStrategy)
  (stackName text : string) :
  resolveMainStackName (stackNameResolver this) = Return stackName ->
  send_GetTemplateSummaryCommand (cfnClient this) stackName
  = Return {| Metadata := Some text |} ->
  JSON.parse text = Return JNull ->
  fetchBackendOutput this
  = Throw (TypeError "Cannot convert undefined or null to object")
  /\ (forall code message,
         fetchBackendOutput this
         <> Throw (BackendOutputClientError code message)).
Proof.
  intros Hname Hsummary Hparse.
  assert (Hfetch :
            fetchBackendOutput this
            = Throw (TypeError "Cannot convert undefined or null to object")).
  { rewrite (fetch_after_summary this stackName Hname).
    rewrite Hsummary. simpl. rewrite Hparse. reflexivity. }
  rewrite Hfetch. split; [reflexivity | intros; discriminate].
Qed.

Lemma filter_none {A : Type} (p : A -> bool) (xs : list A) :
  (forall x, In x xs -> p x = false) -> filter p xs = [].
Proof.
  induction xs as [|x xs IH]; simpl; intros Hall; [reflexivity|].
  rewrite (Hall x (or_introl eq_refl)). apply IH.
  intros y Hy. apply Hall. now right.
Qed.

Lemma characters_are_strings (s : string) (value : JSValue) :
  In value (characters s) -> exists c, value = JString c.
Proof.
  induction s as [|c s IH]; simpl; [tauto|].
  intros [<-|Hin]; [eauto | now apply IH].
Qed.

(** A value that is no object has no entry for the filter to keep. *)
Lemma filter_of_primitive (metadataObject : JSValue) :
  typeof metadataObject <> "object" ->
  filterBackendOutputEntryStackMetadata metadataObject = Return [].
Proof.
  intros Htype. unfold filterBackendOutputEntryStackMetadata.
  destruct metadataObject as [| | |s| |]; simpl in *;
    try reflexivity; try (exfalso; now apply Htype).
  rewrite filter_none; [reflexivity|].
  intros [key value] Hin. simpl.
  apply in_combine_r in Hin. apply characters_are_strings in Hin.
  destruct Hin as [c ->]. unfold isBackendOutputEntryStackMetadata. simpl.
  now rewrite andb_false_r.
Qed.

(** X6. A metadata text that parses to a boolean, a number or a string
    has no entry to keep: for a stack that is not in progress and has
    outputs the routine returns the empty backend output. *)
Theorem primitive_metadata_gives_empty_output
  (this : StackMetadataBackendOutputRetrievalStrategy)
  (stackName text : string) (metadataObject : JSValue)
  (stackDescription : DescribeStacksCommandOutput)
  (stack : Stack) (others : list Stack) (outputs : list Output) :
  resolveMainStackName (stackNameResolver this) = Return stackName ->
  send_GetTemplateSummaryCommand (cfnClient this) stackName
  = Return {| Metadata := Some text |} ->
  JSON.parse text = Return metadataObject ->
  typeof metadataObject <> "object" ->
  send_DescribeStacksCommand (cfnClient this) stackName
  = Return stackDescription ->
  Stacks stackDescription = Some (stack :: others) ->
  in_progress stack = false ->
  Outputs stack = Some outputs ->
  fetchBackendOutput this = Return [].
Proof.
  intros Hname Hsummary Hparse Htype Hdescribe Hstacks Hprogress Houtputs.
  exact (fetch_groups this stackName text metadataObject []
           Hname Hsummary Hparse (filter_of_primitive _ Htype)
           [] stackDescription eq_refl Hdescribe
           stack others outputs Hstacks Hprogress Houtputs).
Qed.

(* ------------------------------------------------------------------ *)
(** ** The record of outputs *)

Lemma rawOutputValue_app (before after : list Output) (name : string) :
  rawOutputValue (before ++ after) name
  = match rawOutputValue after name with
    | Some value => Some value
    | None => rawOutputValue before name
    end.
Proof.
  induction before as [|output before IH]; simpl.
  - now destruct (rawOutputValue after name).
  - rewrite IH. destruct (rawOutputValue after name); [reflexivity|].
    reflexivity.
Qed.

(** X7. When several output entries carry the same key, the record of
    outputs holds the value of the last usable one: a later entry with
    that key and no value, or an empty one, does not erase it. *)
Theorem later_usable_output_wins (before after : list Output)
  (output : Output) (key value : string) :
  OutputKey output = Some key ->
  OutputValue output = Some value ->
  key <> "" -> value <> "" ->
  (forall later,
      In later after -> OutputKey later = Some key ->
      OutputValue later = None \/ OutputValue later = Some "") ->
  get_property key (stackOutputRecord_of (before ++ output :: after))
  = Some value.
Proof.
  intros Hkey Hvalue Hk Hv Hlater.
  rewrite stackOutputRecord_lookup, rawOutputValue_app. simpl.
  rewrite (rawOutputValue_None after key Hlater).
  rewrite Hkey, Hvalue, String.eqb_refl.
  destruct (String.eqb_spec key ""); [contradiction|].
  destruct (String.eqb_spec value ""); [contradiction|].
  reflexivity.
Qed.

Lemma usable_pair_Some (output : Output) (key value : string) :
  usable_pair output = Some (key, value) <->
  OutputKey output = Some key /\ OutputValue output = Some value
  /\ key <> "" /\ value <> "".
Proof.
  unfold usable_pair.
  destruct (OutputKey output) as [k|], (OutputValue output) as [v|];
    try (split; [discriminate | intros (H1 & H2 & _); discriminate]).
  destruct (String.eqb_spec k "") as [->|Hk]; simpl.
  { split; [discriminate|]. intros ([= <-] & _ & H & _). contradiction. }
  destruct (String.eqb_spec v "") as [->|Hv]; simpl.
  { split; [discriminate|]. intros (_ & [= <-] & _ & H). contradiction. }
  split.
  - intros [= <- <-]. tauto.
  - intros ([= <-] & [= <-] & _). reflexivity.
Qed.

Lemma usable_pairs_In (outputs : list Output) (key value : string) :
  In (key, value) (usable_pairs outputs) <->
  exists output,
    In output outputs /\ usable_pair output = Some (key, value).
Proof.
  unfold usable_pairs. rewrite in_flat_map. split.
  - intros (output & Hin & Hmem). exists output. split; [assumption|].
    destruct (usable_pair output) as [kv|]; simpl in Hmem; [|contradiction].
    destruct Hmem as [->|[]]. reflexivity.
  - intros (output & Hin & Hpair). exists output. rewrite Hpair.
    simpl. tauto.
Qed.

(** The raw value of a name is the value of a usable pair under it. *)
Lemma rawOutputValue_usable (outputs : list Output) (name value : string) :
  rawOutputValue outputs name = Some value ->
  In (name, value) (usable_pairs outputs).
Proof.
  intros Hraw. apply rawOutputValue_Some in Hraw.
  destruct Hraw as (Hn & Hv & output & Hin & Hkey & Hvalue).
  apply usable_pairs_In. exists output. split; [assumption|].
  apply usable_pair_Some. tauto.
Qed.

Lemma usable_has_raw_value (outputs : list Output) (name value : string) :
  In (name, value) (usable_pairs outputs) ->
  exists value', rawOutputValue outputs name = Some value'.
Proof.
  intros Hin. apply usable_pairs_In in Hin.
  destruct Hin as (output & Hin & Hpair).
  apply usable_pair_Some in Hpair.
  destruct Hpair as (Hkey & Hvalue & Hk & Hv).
  destruct (rawOutputValue outputs name) as [value'|] eqn:Hraw; [eauto|].
  exfalso. induction outputs as [|o rest IH]; simpl in *; [contradiction|].
  destruct (rawOutputValue rest name) eqn:Hrest; [discriminate|].
  destruct Hin as [->|Hin]; [|now apply IH].
  rewrite Hkey, Hvalue, String.eqb_refl in Hraw.
  destruct (String.eqb_spec name ""); [contradiction|].
  destruct (String.eqb_spec value ""); [contradiction|].
  discriminate.
Qed.

(** With one usable pair for each name, the raw values are the pairs. *)
Lemma rawOutputValue_distinct (outputs : list Output) (name value : string) :
  NoDup (map fst (usable_pairs outputs)) ->
  In (name, value) (usable_pairs outputs) ->
  rawOutputValue outputs name = Some value.
Proof.
  intros Hnd Hin.
  destruct (usable_has_raw_value _ _ _ Hin) as [value' Hraw].
  rewrite Hraw. f_equal.
  apply rawOutputValue_usable in Hraw.
  assert (Hget : forall v, In (name, v) (usable_pairs outputs) ->
                           get_property name (usable_pairs outputs) = Some v).
  { intros v. now apply In_get_property. }
  pose proof (Hget _ Hin) as H1. pose proof (Hget _ Hraw) as H2.
  congruence.
Qed.

Lemma rawOutputValue_Permutation (first second : list Output)
  (name : string) :
  Permutation first second ->
  NoDup (map fst (usable_pairs first)) ->
  rawOutputValue first name = rawOutputValue second name.
Proof.
  intros Hperm Hnd.
  assert (Hpairs : Permutation (usable_pairs first) (usable_pairs second)).
  { unfold usable_pairs. now apply Permutation_flat_map. }
  assert (Hnd' : NoDup (map fst (usable_pairs second))).
  { eapply Permutation_NoDup; [|exact Hnd]. now apply Permutation_map. }
  destruct (rawOutputValue first name) as [value|] eqn:H1.
  - symmetry. apply rawOutputValue_distinct; [assumption|].
    eapply Permutation_in; [exact Hpairs|].
    now apply rawOutputValue_usable.
  - destruct (rawOutputValue second name) as [value|] eqn:H2;
      [|reflexivity].
    apply rawOutputValue_usable in H2.
    apply (Permutation_in _ (Permutation_sym Hpairs)) in H2.
    apply (rawOutputValue_distinct _ _ _ Hnd) in H2. congruence.
Qed.

(** The payload of an entry reads the record of outputs by lookup only. *)
Lemma outputData_of_lookups (first second : JSRecord string)
  (entry : BackendOutputEntryStackMetadata) :
  (forall name, get_property name first = get_property name second) ->
  outputData_of first entry = outputData_of second entry.
Proof.
  intros Hsame. unfold outputData_of, read_property.
  generalize (@nil (string * PropertyValue)).
  induction (stackOutputs entry) as [|name names IH]; intros accumulator;
    simpl; [reflexivity|].
  rewrite Hsame. apply IH.
Qed.

(** X8. The order in which the stack lists its outputs does not matter
    when no two usable outputs share a key: two descriptions that differ
    in the order of the outputs (and in the stacks after the first) end
    the second half of the routine in the same way. *)
Theorem output_order_does_not_matter
  (backendOutputMetadata : JSRecord BackendOutputEntryStackMetadata)
  (first second : list Output) (status : option string)
  (tags : option (list Tag)) (others others' : list Stack) :
  Permutation first second ->
  NoDup (map fst (usable_pairs first)) ->
  reconstruct backendOutputMetadata
    {| Stacks :=
         Some ({| StackStatus := status; Tags := tags;
                  Outputs := Some first |} :: others) |}
  = reconstruct backendOutputMetadata
      {| Stacks :=
           Some ({| StackStatus := status; Tags := tags;
                    Outputs := Some second |} :: others') |}.
Proof.
  intros Hperm Hnd. unfold reconstruct, first_stack, optional_first_stack.
  simpl.
  destruct (match status with
            | Some s => endsWith s "_IN_PROGRESS"
            | None => false
            end); [reflexivity|].
  f_equal.
  generalize (@nil (string * BackendOutputEntry.t)).
  induction backendOutputMetadata as [|[key entry] rest IH];
    intros result; simpl; [reflexivity|].
  rewrite (outputData_of_lookups (stackOutputRecord_of first)
             (stackOutputRecord_of second) entry).
  - apply IH.
  - intros name. rewrite !stackOutputRecord_lookup.
    now apply rawOutputValue_Permutation.
Qed.

Lemma stackOutputRecord_fold_NoDup (outputs : list Output) :
  forall accumulator : JSRecord string,
    NoDup (Object_keys accumulator) ->
    NoDup
      (Object_keys
         (fold_left
            (fun accumulator outputEntry =>
               match OutputKey outputEntry, OutputValue outputEntry with
               | Some key, Some value => define_property key value accumulator
               | _, _ => accumulator
               end)
            outputs accumulator)).
Proof.
  induction outputs as [|output outputs IH]; intros accumulator Hnd; simpl.
  - assumption.
  - apply IH.
    destruct (OutputKey output), (OutputValue output);
      try assumption. now apply define_property_NoDup.
Qed.

(** X9. The record of outputs has each key once and holds no empty key
    and no empty value, each pair coming from an output entry; so the test
    for the empty string in the payload reduction never fires: the
    reduction without it computes the same payload. *)
Theorem stackOutputRecord_holds_no_empty_string (outputs : list Output) :
  NoDup (Object_keys (stackOutputRecord_of outputs))
  /\ (forall key value,
         In (key, value) (stackOutputRecord_of outputs) ->
         key <> "" /\ value <> ""
         /\ exists output,
              In output outputs /\ OutputKey output = Some key
              /\ OutputValue output = Some value)
  /\ (forall entry,
         outputData_of (stackOutputRecord_of outputs) entry
         = outputData_without_empty_test (stackOutputRecord_of outputs)
             entry).
Proof.
  assert (Hnd : NoDup (Object_keys (stackOutputRecord_of outputs))).
  { unfold stackOutputRecord_of. apply stackOutputRecord_fold_NoDup.
    constructor. }
  split; [exact Hnd|]. split.
  - intros key value Hin.
    apply (In_get_property _ _ _ Hnd) in Hin.
    rewrite stackOutputRecord_lookup in Hin.
    now apply rawOutputValue_Some in Hin.
  - intros entry. unfold outputData_of, outputData_without_empty_test.
    generalize (@nil (string * PropertyValue)).
    induction (stackOutputs entry) as [|name names IH]; intros accumulator;
      simpl; [reflexivity|].
    destruct (read_property name (stackOutputRecord_of outputs))
      as [value|] eqn:Hread; [|apply IH].
    rewrite (read_not_empty _ _ _ Hread). apply IH.
Qed.

Lemma outputData_fold_any (outputs : list Output) (names : list string)
  (name : string) :
  forall accumulator : JSRecord PropertyValue,
    let payload :=
      fold_left
        (fun accumulator outputName =>
           match
             read_property outputName (stackOutputRecord_of outputs)
           with
           | None => accumulator
           | Some value =>
               if is_empty_string value then accumulator
               else define_property outputName value accumulator
           end)
        names accumulator in
    (NoDup (Object_keys accumulator) -> NoDup (Object_keys payload))
    /\ List.length payload <= List.length accumulator + List.length names
    /\ get_property name payload
       = if includes names name
         then match read_property name (stackOutputRecord_of outputs) with
              | Some value => Some value
              | None => get_property name accumulator
              end
         else get_property name accumulator.
Proof.
  induction names as [|first names IH]; intros accumulator; simpl.
  - split; [tauto|]. split; [lia | reflexivity].
  - destruct (read_property first (stackOutputRecord_of outputs))
      as [value|] eqn:Hread.
    + rewrite (read_not_empty _ _ _ Hread).
      destruct (IH (define_property first value accumulator))
        as (Hnd & Hlen & Hget).
      split; [|split].
      * intros Hacc. apply Hnd. now apply define_property_NoDup.
      * pose proof (define_property_length accumulator first value). lia.
      * rewrite Hget, get_define_property.
        destruct (String.eqb_spec name first) as [->|Hne].
        -- rewrite Hread. simpl. now destruct (includes names first).
        -- simpl. reflexivity.
    + destruct (IH accumulator) as (Hnd & Hlen & Hget).
      split; [exact Hnd|]. split; [lia|].
      rewrite Hget.
      destruct (String.eqb_spec name first) as [->|Hne]; simpl.
      * rewrite Hread. now destruct (includes names first).
      * reflexivity.
Qed.

(** X10. For any declared names, repeated or not, the payload has each
    key once and no more pairs than names; a declared name is mapped to
    what reading the record of the outputs gives for it: its raw value, if
    it has one; without one, the member of [Object.prototype] of that
    name, if there is one; and no other name is mapped. *)
Theorem payload_of_any_names (outputs : list Output)
  (entry : BackendOutputEntryStackMetadata) :
  let payload := outputData_of (stackOutputRecord_of outputs) entry in
  NoDup (Object_keys payload)
  /\ List.length payload <= List.length (stackOutputs entry)
  /\ (forall name,
         In name (stackOutputs entry) ->
         get_property name payload
         = read_property name (stackOutputRecord_of outputs)
         /\ get_property name payload
            = match rawOutputValue outputs name with
              | Some value => Some (StringValue value)
              | None =>
                  if own_name name then None
                  else Some (PrototypeMember name)
              end)
  /\ (forall name,
         ~ In name (stackOutputs entry) ->
         get_property name payload = None).
Proof.
  unfold outputData_of. simpl.
  split; [|split; [|split]].
  - apply (outputData_fold_any outputs (stackOutputs entry) "" []).
    constructor.
  - apply (outputData_fold_any outputs (stackOutputs entry) "" []).
  - intros name Hin.
    destruct (outputData_fold_any outputs (stackOutputs entry) name [])
      as (_ & _ & Hget).
    rewrite <- read_stackOutputRecord.
    rewrite Hget. rewrite (proj2 (includes_In _ _) Hin). simpl.
    now destruct (read_property name (stackOutputRecord_of outputs)).
  - intros name Hnotin.
    destruct (outputData_fold_any outputs (stackOutputs entry) name [])
      as (_ & _ & Hget).
    rewrite Hget.
    destruct (includes (stackOutputs entry) name) eqn:Hinc; [|reflexivity].
    apply includes_In in Hinc. contradiction.
Qed.

Lemma Object_fromEntries_In {V : Type} (entries : list (string * V))
  (k : string) (v : V) :
  In (k, v) (Object_fromEntries entries) -> In (k, v) entries.
Proof.
  unfold Object_fromEntries.
  assert (H : forall obj : JSRecord V,
             In (k, v)
               (fold_left
                  (fun acc kv => set_property (fst kv) (snd kv) acc)
                  entries obj) ->
             In (k, v) obj \/ In (k, v) entries).
  { induction entries as [|[k0 v0] entries IH]; intros obj; simpl.
    - tauto.
    - intros Hin. destruct (IH _ Hin) as [Hset|Hrest]; [|tauto].
      apply set_property_In in Hset. simpl in Hset. tauto. }
  intros Hin. destruct (H [] Hin) as [[]|Hentries]. exact Hentries.
Qed.

Lemma filter_all {A : Type} (p : A -> bool) (xs : list A) :
  (forall x, In x xs -> p x = true) -> filter p xs = xs.
Proof.
  induction xs as [|x xs IH]; simpl; intros Hall; [reflexivity|].
  rewrite (Hall x (or_introl eq_refl)). f_equal. apply IH.
  intros y Hy. apply Hall. now right.
Qed.

(** X11. Filtering is idempotent: the filtered object has each key once,
    all its entries satisfy the predicate, and filtering it again gives
    it back. *)
Theorem filter_is_idempotent (metadataObject : JSValue)
  (filteredMetadataObject : JSRecord JSValue) :
  filterBackendOutputEntryStackMetadata metadataObject
  = Return filteredMetadataObject ->
  filterBackendOutputEntryStackMetadata (JObject filteredMetadataObject)
  = Return filteredMetadataObject
  /\ NoDup (Object_keys filteredMetadataObject)
  /\ (forall key value,
         In (key, value) filteredMetadataObject ->
         isBackendOutputEntryStackMetadata value = true).
Proof.
  intros Hfilter.
  destruct (filter_Return _ _ Hfilter) as (entries & Hentries & ->).
  assert (Hkept :
            forall key value,
              In (key, value)
                (Object_fromEntries
                   (filter
                      (fun kv => isBackendOutputEntryStackMetadata (snd kv))
                      entries)) ->
              isBackendOutputEntryStackMetadata value = true).
  { intros key value Hin. apply Object_fromEntries_In in Hin.
    apply filter_In in Hin. exact (proj2 Hin). }
  split; [|split; [apply Object_fromEntries_NoDup | exact Hkept]].
  unfold filterBackendOutputEntryStackMetadata at 1. simpl.
  rewrite filter_all.
  - rewrite Object_fromEntries_distinct; [reflexivity|].
    apply Object_fromEntries_NoDup.
  - intros [key value] Hin. simpl. exact (Hkept key value Hin).
Qed.

Lemma outputData_of_declared_lookups (first second : JSRecord string)
  (entry : BackendOutputEntryStackMetadata) :
  (forall name,
      In name (stackOutputs entry) ->
      get_property name first = get_property name second) ->
  outputData_of first entry = outputData_of second entry.
Proof.
  unfold outputData_of, read_property.
  generalize (@nil (string * PropertyValue)).
  induction (stackOutputs entry) as [|name names IH];
    intros accumulator Hsame; simpl; [reflexivity|].
  rewrite (Hsame name (or_introl eq_refl)). apply IH.
  intros other Hin. apply Hsame. now right.
Qed.

(** X15. An output entry whose key no validated entry declares changes
    nothing: the second half of the routine ends in the same way with and
    without it. *)
Theorem undeclared_output_changes_nothing
  (backendOutputMetadata : JSRecord BackendOutputEntryStackMetadata)
  (before after : list Output) (output : Output)
  (status : option string) (tags : option (list Tag))
  (others : list Stack) :
  (forall key entry name,
      In (key, entry) backendOutputMetadata ->
      In name (stackOutputs entry) ->
      OutputKey output <> Some name) ->
  reconstruct backendOutputMetadata
    {| Stacks :=
         Some ({| StackStatus := status; Tags := tags;
                  Outputs := Some (before ++ output :: after) |}
               :: others) |}
  = reconstruct backendOutputMetadata
      {| Stacks :=
           Some ({| StackStatus := status; Tags := tags;
                    Outputs := Some (before ++ after) |} :: others) |}.
Proof.
  intros Hundeclared. unfold reconstruct, first_stack, optional_first_stack.
  simpl.
  destruct (match status with
            | Some s => endsWith s "_IN_PROGRESS"
            | None => false
            end); [reflexivity|].
  f_equal.
  generalize (@nil (string * BackendOutputEntry.t)).
  induction backendOutputMetadata as [|[key entry] rest IH];
    intros result; simpl; [reflexivity|].
  rewrite (outputData_of_declared_lookups
             (stackOutputRecord_of (before ++ output :: after))
             (stackOutputRecord_of (before ++ after)) entry).
  - apply IH. intros k e name Hin Hname.
    apply (Hundeclared k e name); [now right | assumption].
  - intros name Hname. rewrite !stackOutputRecord_lookup.
    rewrite !rawOutputValue_app. simpl.
    destruct (rawOutputValue after name); [reflexivity|].
    pose proof (Hundeclared key entry name (or_introl eq_refl) Hname)
      as Hkey.
    destruct (OutputKey output) as [k|]; [|reflexivity].
    destruct (OutputValue output); [|reflexivity].
    destruct (String.eqb_spec k name) as [->|]; [|reflexivity].
    exfalso. now apply Hkey.
Qed.

(* ------------------------------------------------------------------ *)
(** ** The command that generates forms *)

Section GenerateFormsProperties.

Variable DeployedBackendIdentifier : Type.
Variable graphqlOutputKey : string.
Variable path_join : string -> string -> string.

Lemma handler_after_identifier
  (this : GenerateFormsCommand DeployedBackendIdentifier)
  (args : GenerateFormsCommandOptions.t)
  (identifier : DeployedBackendIdentifier) (error : JSError) :
  resolveDeployedBackendIdentifier (backendIdentifierResolver this) args
  = Resolved (Some identifier) ->
  getOutput (backendOutputClientBuilder this tt) identifier = Throw error ->
  handler graphqlOutputKey path_join this args
  = Rejected (catch_output_error error).
Proof.
  intros Hid Hout. unfold handler. rewrite Hid. simpl. rewrite Hout.
  reflexivity.
Qed.


(** X13. What a failure of the retrieval strategy looks like at the
    command, for a client that fails with the error of its strategy and a
    CloudFormation client that answers: the deployment-in-progress and
    no-outputs-found errors become the [AmplifyUserError]s of these names
    with the error as cause; the metadata retrieval error, a syntax error,
    a type error and a schema validation error reach the user as they
    are. *)
Theorem strategy_failure_at_the_command
  (strategy : StackMetadataBackendOutputRetrievalStrategy)
  (stackName : string) (templateSummary : GetTemplateSummaryCommandOutput)
  (stackDescription : DescribeStacksCommandOutput) (error : JSError)
  (this : GenerateFormsCommand DeployedBackendIdentifier)
  (args : GenerateFormsCommandOptions.t)
  (identifier : DeployedBackendIdentifier) :
  resolveMainStackName (stackNameResolver strategy) = Return stackName ->
  send_GetTemplateSummaryCommand (cfnClient strategy) stackName
  = Return templateSummary ->
  send_DescribeStacksCommand (cfnClient strategy) stackName
  = Return stackDescription ->
  fetchBackendOutput strategy = Throw error ->
  resolveDeployedBackendIdentifier (backendIdentifierResolver this) args
  = Resolved (Some identifier) ->
  getOutput (backendOutputClientBuilder this tt) identifier = Throw error ->
  exists rejection,
    handler graphqlOutputKey path_join this args = Rejected rejection
    /\ ((exists label,
            error = BackendOutputClientError DEPLOYMENT_IN_PROGRESS
                      (in_progress_message label)) ->
        exists message resolution,
          rejection = AmplifyUserError "DeploymentInProgressError"
                        message resolution (Some error))
    /\ (error = BackendOutputClientError NO_OUTPUTS_FOUND
                  "Stack outputs are undefined" ->
        exists message resolution,
          rejection = AmplifyUserError "AmplifyOutputsNotFoundError"
                        message resolution (Some error))
    /\ (rejection = Thrown error <->
        error = BackendOutputClientError METADATA_RETRIEVAL_ERROR
                  "Stack template metadata is not a string"
        \/ (exists message, error = SyntaxError message)
        \/ (exists message, error = TypeError message)
        \/ (exists paths, error = SchemaValidationError paths)).
Proof.
  intros Hname Hsummary Hdescribe Hfetch Hid Hclient.
  exists (catch_output_error error).
  split; [exact (handler_after_identifier this args identifier error
                   Hid Hclient)|].
  pose proof (answered_fetch_throws_own_error strategy stackName
                templateSummary stackDescription error
                Hname Hsummary Hdescribe Hfetch) as Hown.
  unfold own_error in Hown.
  destruct Hown
    as [-> | [[m ->] | [[m ->] | [[m ->] | [[label ->] | ->]]]]]; simpl.
  - split; [intros [l H]; discriminate H|].
    split; [intros H; discriminate H|]. split; [tauto | reflexivity].
  - split; [intros [l H]; discriminate H|].
    split; [intros H; discriminate H|].
    split; [intros _; right; left; eauto | reflexivity].
  - split; [intros [l H]; discriminate H|].
    split; [intros H; discriminate H|].
    split; [intros _; right; right; left; eauto | reflexivity].
  - split; [intros [l H]; discriminate H|].
    split; [intros H; discriminate H|].
    split; [intros _; right; right; right; eauto | reflexivity].
  - split; [intros _; eexists _, _; reflexivity|].
    split; [intros H; discriminate H|].
    split; [intros H; discriminate H|].
    intros [H | [[x H] | [[x H] | [x H]]]]; discriminate H.
  - split; [intros [l H]; discriminate H|].
    split; [intros _; eexists _, _; reflexivity|].
    split; [intros H; discriminate H|].
    intros [H | [[x H] | [[x H] | [x H]]]]; discriminate H.
Qed.

(** X14. The handler resolves only after it asked for the forms: the
    backend identifier resolved, [getOutput] returned an output with an
    entry under the GraphQL key, [outDir] is a string that is not empty,
    and [generate] was given [outDir] as the directory of the forms, its
    [graphql] subdirectory for the models, the [amplifyApiModelSchemaS3Uri]
    of the entry as the API URL and the models of the arguments. *)
Theorem forms_are_generated_only_with_graphql_and_out_dir
  (this : GenerateFormsCommand DeployedBackendIdentifier)
  (args : GenerateFormsCommandOptions.t) :
  handler graphqlOutputKey path_join this args = Resolved tt ->
  exists identifier output entry directory,
    resolveDeployedBackendIdentifier (backendIdentifierResolver this) args
    = Resolved (Some identifier)
    /\ getOutput (backendOutputClientBuilder this tt) identifier
       = Return output
    /\ get_property graphqlOutputKey output = Some entry
    /\ GenerateFormsCommandOptions.outDir args = Some directory
    /\ directory <> ""
    /\ generate (formGenerationHandler this)
         {| modelsOutDir := path_join directory "graphql";
            backendIdentifier := identifier;
            uiOutDir := directory;
            apiUrl :=
              get_property "amplifyApiModelSchemaS3Uri"
                (BackendOutputEntry.payload entry);
            modelsFilter := GenerateFormsCommandOptions.models args |}
       = Resolved tt.
Proof.
  unfold handler. intros Hrun.
  destruct (resolveDeployedBackendIdentifier
              (backendIdentifierResolver this) args)
    as [[identifier|]|] eqn:Hid; simpl in Hrun; try discriminate.
  destruct (getOutput (backendOutputClientBuilder this tt) identifier)
    as [output|] eqn:Hout; simpl in Hrun; [|discriminate].
  unfold has_property in Hrun.
  destruct (get_property graphqlOutputKey output) as [entry|] eqn:Hentry;
    simpl in Hrun; [|discriminate].
  destruct (GenerateFormsCommandOptions.outDir args) as [directory|]
    eqn:Hdir; simpl in Hrun; [|discriminate].
  destruct (String.eqb_spec directory "") as [->|Hne]; simpl in Hrun;
    [discriminate|].
  exists identifier, output, entry, directory.
  repeat (split; [reflexivity || assumption|]). exact Hrun.
Qed.

End GenerateFormsProperties.

(* ------------------------------------------------------------------ *)
(** ** The further properties on the example stack *)

Lemma fetch_returns_only_joined_witness :
  exists stackName text,
    resolveMainStackName
      (stackNameResolver
         (example_strategy example_summary
            (Return
               {| Stacks :=
                    Some [example_stack "UPDATE_COMPLETE"
                            (Some example_outputs)] |})))
    = Return stackName
    /\ send_GetTemplateSummaryCommand
         (cfnClient
            (example_strategy example_summary
               (Return
                  {| Stacks :=
                       Some [example_stack "UPDATE_COMPLETE"
                               (Some example_outputs)] |})))
         stackName
       = Return {| Metadata := Some text |}.
Proof.
  destruct
    (fetch_returns_only_joined
       (example_strategy example_summary
          (Return
             {| Stacks :=
                  Some [example_stack "UPDATE_COMPLETE"
                          (Some example_outputs)] |}))
       [("api",
         BackendOutputEntry.make "1" [("ApiUrl", StringValue "https://x")])]
       eq_refl)
    as (stackName & text & _ & _ & _ & _ & _ & _ & _ & Hname & Hsummary & _).
  exists stackName, text. split; [exact Hname | exact Hsummary].
Defined.

Lemma fetch_fails_with_own_errors_witness :
  own_error
    (BackendOutputClientError NO_OUTPUTS_FOUND "Stack outputs are undefined").
Proof.
  apply
    (proj1
       (fetch_fails_with_own_errors
          (example_strategy example_summary
             (Return
                {| Stacks := Some [example_stack "UPDATE_COMPLETE" None] |}))
          "amplify-app-main" {| Metadata := Some example_text |}
          {| Stacks := Some [example_stack "UPDATE_COMPLETE" None] |}
          (BackendOutputClientError NO_OUTPUTS_FOUND
             "Stack outputs are undefined")
          eq_refl eq_refl eq_refl eq_refl)).
Defined.

Lemma provider_kinds_come_from_template_summary_witness :
  exists thrown,
    send_GetTemplateSummaryCommand
      (cfnClient
         (example_strategy
            (Throw (CloudFormationServiceException "AccessDenied" "denied"))
            (Return {| Stacks := None |})))
      "amplify-app-main"
    = Throw thrown.
Proof.
  destruct
    (provider_kinds_come_from_template_summary
       (example_strategy
          (Throw (CloudFormationServiceException "AccessDenied" "denied"))
          (Return {| Stacks := None |}))
       "amplify-app-main" {| Stacks := None |} ACCESS_DENIED "denied"
       eq_refl eq_refl (or_intror (or_intror eq_refl)) eq_refl)
    as (thrown & Hthrown & _).
  exists thrown. exact Hthrown.
Defined.

Lemma describe_stacks_error_is_thrown_unchanged_witness :
  fetchBackendOutput
    (example_strategy example_summary
       (Throw (OtherError "TimeoutError" "socket timed out")))
  = Throw (OtherError "TimeoutError" "socket timed out").
Proof.
  apply
    (describe_stacks_error_is_thrown_unchanged
       (example_strategy example_summary
          (Throw (OtherError "TimeoutError" "socket timed out")))
       "amplify-app-main" example_text (JObject example_properties)
       [("api", example_api)] [("api", example_entry)]
       (OtherError "TimeoutError" "socket timed out")
       eq_refl eq_refl eq_refl eq_refl eq_refl eq_refl).
Defined.

Lemma null_metadata_throws_type_error_witness :
  fetchBackendOutput
    (example_strategy (Return {| Metadata := Some "null" |})
       (Return
          {| Stacks :=
               Some [example_stack "UPDATE_COMPLETE"
                       (Some example_outputs)] |}))
  = Throw (TypeError "Cannot convert undefined or null to object").
Proof.
  apply
    (proj1
       (null_metadata_throws_type_error
          (example_strategy (Return {| Metadata := Some "null" |})
             (Return
                {| Stacks :=
                     Some [example_stack "UPDATE_COMPLETE"
                             (Some example_outputs)] |}))
          "amplify-app-main" "null" eq_refl eq_refl eq_refl)).
Defined.

Lemma primitive_metadata_gives_empty_output_witness :
  fetchBackendOutput
    (example_strategy (Return {| Metadata := Some "42" |})
       (Return
          {| Stacks :=
               Some [example_stack "UPDATE_COMPLETE"
                       (Some example_outputs)] |}))
  = Return [].
Proof.
  apply
    (primitive_metadata_gives_empty_output
       (example_strategy (Return {| Metadata := Some "42" |})
          (Return
             {| Stacks :=
                  Some [example_stack "UPDATE_COMPLETE"
                          (Some example_outputs)] |}))
       "amplify-app-main" "42" (JNumber "42")
       {| Stacks :=
            Some [example_stack "UPDATE_COMPLETE" (Some example_outputs)] |}
       (example_stack "UPDATE_COMPLETE" (Some example_outputs)) []
       example_outputs
       eq_refl eq_refl eq_refl).
  - simpl. discriminate.
  - reflexivity.
  - reflexivity.
  - reflexivity.
  - reflexivity.
Defined.

Lemma later_usable_output_wins_witness :
  get_property "ApiUrl"
    (stackOutputRecord_of
       ([ {| OutputKey := Some "ApiUrl"; OutputValue := Some "https://x" |} ]
        ++ {| OutputKey := Some "ApiUrl"; OutputValue := Some "https://y" |}
        :: [ {| OutputKey := Some "ApiUrl"; OutputValue := Some "" |} ]))
  = Some "https://y".
Proof.
  apply later_usable_output_wins.
  - reflexivity.
  - reflexivity.
  - discriminate.
  - discriminate.
  - intros later [<-|[]] _. right. reflexivity.
Defined.

Lemma output_order_does_not_matter_witness :
  reconstruct [("api", example_entry)]
    {| Stacks :=
         Some [ {| StackStatus := Some "UPDATE_COMPLETE"; Tags := None;
                   Outputs :=
                     Some [ {| OutputKey := Some "ApiUrl";
                               OutputValue := Some "https://x" |};
                            {| OutputKey := Some "ApiId";
                               OutputValue := Some "abc" |} ] |} ] |}
  = reconstruct [("api", example_entry)]
      {| Stacks :=
           Some [ {| StackStatus := Some "UPDATE_COMPLETE"; Tags := None;
                     Outputs :=
                       Some [ {| OutputKey := Some "ApiId";
                                 OutputValue := Some "abc" |};
                              {| OutputKey := Some "ApiUrl";
                                 OutputValue := Some "https://x" |} ] |} ] |}.
Proof.
  apply output_order_does_not_matter.
  - apply perm_swap.
  - apply (proj1 (unique_NoDup ["ApiUrl"; "ApiId"])). reflexivity.
Defined.

Lemma filter_is_idempotent_witness :
  filterBackendOutputEntryStackMetadata (JObject [("api", example_api)])
  = Return [("api", example_api)].
Proof.
  apply
    (proj1
       (filter_is_idempotent (JObject example_properties)
          [("api", example_api)] eq_refl)).
Defined.

Lemma undeclared_output_changes_nothing_witness :
  reconstruct [("api", example_entry)]
    {| Stacks :=
         Some [ {| StackStatus := Some "UPDATE_COMPLETE"; Tags := None;
                   Outputs :=
                     Some (example_outputs
                           ++ {| OutputKey := Some "BucketName";
                                 OutputValue := Some "b" |} :: []) |} ] |}
  = reconstruct [("api", example_entry)]
      {| Stacks :=
           Some [ {| StackStatus := Some "UPDATE_COMPLETE"; Tags := None;
                     Outputs := Some (example_outputs ++ []) |} ] |}.
Proof.
  apply undeclared_output_changes_nothing.
  intros key entry name [[= _ <-]|[]] [<-|[<-|[]]]; discriminate.
Defined.


Lemma strategy_failure_at_the_command_witness :
  exists rejection message resolution,
    handler "AWS::Amplify::GraphQL" example_path_join
      (example_command
         (client_of
            (example_strategy example_summary
               (Return
                  {| Stacks :=
                       Some [example_stack "UPDATE_IN_PROGRESS" None] |}))))
      example_args
    = Rejected rejection
    /\ rejection
       = AmplifyUserError "DeploymentInProgressError" message resolution
           (Some
              (BackendOutputClientError DEPLOYMENT_IN_PROGRESS
                 (in_progress_message "branch"))).
Proof.
  destruct
    (strategy_failure_at_the_command string "AWS::Amplify::GraphQL"
       example_path_join
       (example_strategy example_summary
          (Return
             {| Stacks :=
                  Some [example_stack "UPDATE_IN_PROGRESS" None] |}))
       "amplify-app-main" {| Metadata := Some example_text |}
       {| Stacks := Some [example_stack "UPDATE_IN_PROGRESS" None] |}
       (BackendOutputClientError DEPLOYMENT_IN_PROGRESS
          (in_progress_message "branch"))
       (example_command
          (client_of
             (example_strategy example_summary
                (Return
                   {| Stacks :=
                        Some [example_stack "UPDATE_IN_PROGRESS" None] |}))))
       example_args "amplify-app-main"
       eq_refl eq_refl eq_refl eq_refl eq_refl eq_refl)
    as (rejection & Hhandler & Hprogress & _).
  destruct (Hprogress (ex_intro _ "branch" eq_refl))
    as (message & resolution & Hrejection).
  exists rejection, message, resolution.
  split; [exact Hhandler | exact Hrejection].
Defined.

Lemma forms_are_generated_only_with_graphql_and_out_dir_witness :
  exists output entry,
    fetchBackendOutput
      (example_strategy
         (Return
            {| Metadata :=
                 Some
                   (json_text
                      "{'AWS::Amplify::GraphQL': {'version': '1', 'stackOutputs': ['amplifyApiModelSchemaS3Uri']}}") |})
         (Return
            {| Stacks :=
                 Some [example_stack "UPDATE_COMPLETE"
                         (Some [ {| OutputKey :=
                                      Some "amplifyApiModelSchemaS3Uri";
                                    OutputValue := Some "s3://models" |} ])] |}))
    = Return output
    /\ get_property "AWS::Amplify::GraphQL" output = Some entry.
Proof.
  destruct
    (forms_are_generated_only_with_graphql_and_out_dir string
       "AWS::Amplify::GraphQL" example_path_join
       (example_command
          (client_of
             (example_strategy
                (Return
                   {| Metadata :=
                        Some
                          (json_text
                             "{'AWS::Amplify::GraphQL': {'version': '1', 'stackOutputs': ['amplifyApiModelSchemaS3Uri']}}") |})
                (Return
                   {| Stacks :=
                        Some [example_stack "UPDATE_COMPLETE"
                                (Some [ {| OutputKey :=
                                             Some "amplifyApiModelSchemaS3Uri";
                                           OutputValue :=
                                             Some "s3://models" |} ])] |}))))
       example_args eq_refl)
    as (identifier & output & entry & directory & _ & Houtput & Hentry & _).
  exists output, entry. split; [exact Houtput | exact Hentry].
Defined.
